(** * sinfInjector: patching DRM blobs into an application archive

    A shallow embedding of [backend/src/services/sinfInjector.ts] and the
    properties of its archive accessor, bundle locator and injection planner.

    Conventions of the embedding:
    - a JavaScript string is a [string] (a sequence of code units; every
      pattern the program searches for is ASCII);
    - a Node [Buffer] is a [list byte];
    - a value decoded from a property list is a [PropertyValue];
    - the child processes ([unzip], [zip]) and the file system are an
      environment [World] whose answers may depend on everything that
      happened before; every call is recorded in a trace of [Event]s;
    - the third-party codecs ([bplist-parser], [bplist-creator], [plist]) and
      the runtime conversions (base64, UTF-8) are a record [Libs];
    - a rejected promise or a thrown [Error] is the outcome [Throw]. *)

From Stdlib Require Import List String Ascii Strings.Byte Bool Arith ZArith Lia.
From Stdlib Require DecimalString.
Import ListNotations.

Local Open Scope string_scope.
Local Open Scope list_scope.

(** ** String primitives of the JavaScript runtime *)

Module JsString.

(** [s.startsWith(p)] *)
Fixpoint startsWith (s p : string) {struct p} : bool :=
  match p with
  | EmptyString => true
  | String b p' =>
      match s with
      | EmptyString => false
      | String a s' => Ascii.eqb a b && startsWith s' p'
      end
  end.

(** [s.includes(needle)]: the needle starts at some position of [s]. *)
Fixpoint includes (s needle : string) : bool :=
  startsWith s needle
  || match s with
     | EmptyString => false
     | String _ s' => includes s' needle
     end.

(** [s.endsWith(suffix)]: some tail of [s] is the suffix. *)
Fixpoint endsWith (s suffix : string) : bool :=
  String.eqb s suffix
  || match s with
     | EmptyString => false
     | String _ s' => endsWith s' suffix
     end.

Fixpoint drop (n : nat) (s : string) : string :=
  match n, s with
  | O, _ => s
  | S _, EmptyString => EmptyString
  | S n', String _ s' => drop n' s'
  end.

(** [s.replace(pattern, replacement)] with a string pattern: only the first
    occurrence is replaced. *)
Fixpoint replace (s pattern replacement : string) : string :=
  if startsWith s pattern
  then (replacement ++ drop (String.length pattern) s)%string
  else match s with
       | EmptyString => EmptyString
       | String a s' => String a (replace s' pattern replacement)
       end.

(** [s.split(sep)] for a one-character separator; the result is never
    empty ([''.split('/')] is [['']]). *)
Fixpoint split (sep : ascii) (s : string) : list string :=
  match s with
  | EmptyString => [EmptyString]
  | String a s' =>
      if Ascii.eqb a sep then EmptyString :: split sep s'
      else match split sep s' with
           | [] => [String a EmptyString]
           | w :: ws => String a w :: ws
           end
  end.

(** [parts.join(sep)] *)
Fixpoint join (sep : string) (parts : list string) : string :=
  match parts with
  | [] => EmptyString
  | [w] => w
  | w :: ws => (w ++ sep ++ join sep ws)%string
  end.

Definition isEmpty (s : string) : bool :=
  match s with EmptyString => true | _ => false end.

End JsString.

(** ** Node's [path] module, POSIX flavour

    [path] is part of the Node runtime, not of this repository; these
    definitions follow its documented algorithm: a path is cut at ["/"],
    empty and ["."] segments disappear, and [".."] removes the segment before
    it. *)

Module Path.
Import JsString.

Definition sep : string := "/".

Definition isAbsolute (p : string) : bool := startsWith p "/".

(** One step of [normalizeString]: [acc] is the stack of segments kept so
    far, most recent first. *)
Definition pushSegment (allowAboveRoot : bool) (acc : list string)
           (seg : string) : list string :=
  if isEmpty seg || String.eqb seg "." then acc
  else if String.eqb seg ".." then
    match acc with
    | top :: rest =>
        if String.eqb top ".." then
          (if allowAboveRoot then seg :: acc else acc)
        else rest
    | [] => if allowAboveRoot then [seg] else []
    end
  else seg :: acc.

Definition normalizeString (p : string) (allowAboveRoot : bool) : string :=
  join "/" (List.rev (fold_left (pushSegment allowAboveRoot)
                                (split "/" p) [])).

(** The right-to-left scan of [path.resolve]: arguments are prepended until
    an absolute one is met; the working directory is the last resort. *)
Fixpoint gather (revArgs : list string) (cwd acc : string) : string * bool :=
  match revArgs with
  | [] =>
      if isEmpty cwd then (acc, false)
      else ((cwd ++ "/" ++ acc)%string, isAbsolute cwd)
  | p :: rest =>
      if isEmpty p then gather rest cwd acc
      else
        let acc' := (p ++ "/" ++ acc)%string in
        if isAbsolute p then (acc', true) else gather rest cwd acc'
  end.

(** [path.resolve(...args)] in a process whose working directory is [cwd]. *)
Definition resolve (cwd : string) (args : list string) : string :=
  let '(p, absolute) := gather (List.rev args) cwd "" in
  let n := normalizeString p (negb absolute) in
  if absolute then ("/" ++ n)%string
  else if isEmpty n then "." else n.

(** [path.normalize(p)] *)
Definition normalize (p : string) : string :=
  if isEmpty p then "."
  else
    let absolute := isAbsolute p in
    let trailing := endsWith p "/" in
    let n := normalizeString p (negb absolute) in
    if isEmpty n then
      (if absolute then "/" else if trailing then "./" else ".")
    else
      let n' := if trailing then (n ++ "/")%string else n in
      if absolute then ("/" ++ n')%string else n'.

(** [path.join(...args)] *)
Definition joinPaths (args : list string) : string :=
  let parts := filter (fun a => negb (isEmpty a)) args in
  match parts with
  | [] => "."
  | _ => normalize (JsString.join "/" parts)
  end.

Fixpoint dropWhile (f : ascii -> bool) (l : list ascii) : list ascii :=
  match l with
  | [] => []
  | a :: l' => if f a then dropWhile f l' else l
  end.

Definition isSlash (a : ascii) : bool := Ascii.eqb a "/"%char.

(** [path.dirname(p)]: scan from the end down to index 1, skip trailing
    slashes, then the last segment; what is left of the slash found is the
    directory. *)
Definition dirname (p : string) : string :=
  match p with
  | EmptyString => "."
  | String first tail =>
      let hasRoot := isSlash first in
      let scanned :=
        dropWhile (fun a => negb (isSlash a))
                  (dropWhile isSlash (List.rev (list_ascii_of_string tail))) in
      match scanned with
      | [] => if hasRoot then "/" else "."
      | _ :: before =>
          match before with
          | [] => if hasRoot then "//" else String first EmptyString
          | _ => String first (string_of_list_ascii (List.rev before))
          end
      end
  end.

End Path.

(** ** Values decoded from property lists *)

Definition Buffer : Type := list byte.

Module Plist.

(** What the codecs hand back: the JavaScript image of a property tree.
    A real number is kept as its IEEE-754 binary64 bit pattern, a date as
    milliseconds since the epoch, a mapping as its own properties in
    insertion order, each key once. [PNull] is JavaScript's [null]. *)
#[warnings="-register-all"]
Inductive PropertyValue : Type :=
| PNull
| PString (s : string)
| PInteger (n : Z)
| PReal (bits : Z)
| PBool (b : bool)
| PData (d : Buffer)
| PDate (ms : Z)
| PArray (xs : list PropertyValue)
| PDict (kvs : list (string * PropertyValue)).

(** Zero (of either sign) and NaN, read off the binary64 bit pattern. *)
Definition realIsZeroOrNaN (bits : Z) : bool :=
  let magnitude := Z.land bits 0x7FFFFFFFFFFFFFFF in
  Z.eqb magnitude 0 || Z.ltb 0x7FF0000000000000 magnitude.

(** [if (v)]: JavaScript truthiness. *)
Definition truthy (v : PropertyValue) : bool :=
  match v with
  | PNull => false
  | PString s => negb (JsString.isEmpty s)
  | PInteger n => negb (Z.eqb n 0)
  | PReal bits => negb (realIsZeroOrNaN bits)
  | PBool b => b
  | PData _ | PDate _ | PArray _ | PDict _ => true
  end.

(** [typeof v === "object"] *)
Definition typeofObject (v : PropertyValue) : bool :=
  match v with
  | PNull | PData _ | PDate _ | PArray _ | PDict _ => true
  | PString _ | PInteger _ | PReal _ | PBool _ => false
  end.

Fixpoint assoc (key : string) (kvs : list (string * PropertyValue))
  : option PropertyValue :=
  match kvs with
  | [] => None
  | (k, v) :: rest => if String.eqb k key then Some v else assoc key rest
  end.

(** [v[key]] for a key that is no built-in property: only a mapping can
    answer; [None] is [undefined]. *)
Definition getProp (v : PropertyValue) (key : string)
  : option PropertyValue :=
  match v with
  | PDict kvs => assoc key kvs
  | _ => None
  end.

End Plist.
Export Plist.

(** ** Records of the program *)

(** Modelled from the spec: the declaration of [Sinf] lives in
    [../types/index.js], which is not part of the sources at hand; a DRM blob
    is an ordinal supplied by the caller and a base64 text. *)
Record Sinf : Type := { id : Z; sinf : string }.

(** An element of [filesToInject]. *)
Record InjectFile : Type := { entryPath : string; data : Buffer }.

(** What [readManifestPlist] and [readInfoPlist] resolve to when they do not
    resolve to [null]. *)
Record Manifest : Type := { sinfPaths : list PropertyValue }.
Record Info : Type := { bundleExecutable : string }.

(** ** Effects: outcomes, events and the environment *)

Inductive Error : Type :=
| BundleNotFound                      (* "Could not read bundle name" *)
| LocatorFailed                       (* "Could not read manifest or info plist" *)
| UnsafePath (entry : string)         (* "Path traversal detected in entry: ..." *)
| ArchiveToolFailure (tool : string)  (* a rejected execFile *)
| FsFailure (operation : string)      (* a rejected fs.promises call *)
| TypeError.                          (* "Cannot convert object to primitive value" *)

Inductive Outcome (A : Type) : Type :=
| Ok (a : A)
| Throw (e : Error).
Arguments Ok {A} a.
Arguments Throw {A} e.

Inductive Event : Type :=
| ExecFile (file : string) (args : list string) (cwd : option string)
| Mkdtemp (prefix : string)
| Mkdir (dir : string)
| WriteFile (file : string) (bytes : Buffer)
| Rm (dir : string).

(** Everything done so far, oldest event first. *)
Definition Trace : Type := list Event.

(** The environment answers each call knowing what happened before it;
    [None] and [false] are failures. *)
Record World : Type := {
  process_cwd : string;
  os_tmpdir : string;
  execText : Trace -> string -> list string -> option string -> option string;
  execBuffer : Trace -> string -> list string -> option string -> option Buffer;
  fs_mkdtemp : Trace -> string -> option string;
  fs_mkdir : Trace -> string -> bool;
  fs_writeFile : Trace -> string -> Buffer -> bool;
  fs_rm : Trace -> string -> bool
}.

(** The codecs and conversions the program imports. [None] is a thrown
    exception. [matchEntryLine] is the regular expression of [listEntries]
    applied to one line, yielding the trimmed first group. [toStringJs] is the
    string a template literal makes of a value that is not a string; there
    [None] is the [TypeError] of a value that has no primitive form (a
    mapping with an own [toString] that cannot be called). *)
Record Libs : Type := {
  bplistParser_parseBuffer : Buffer -> option (list PropertyValue);
  plist_parse : string -> option PropertyValue;
  bplistCreator : PropertyValue -> option Buffer;
  Buffer_from_base64 : string -> Buffer;
  Buffer_toString_utf8 : Buffer -> string;
  toStringJs : PropertyValue -> option string;
  matchEntryLine : string -> option string
}.

Module Eff.

(** An asynchronous computation: it extends the trace and either resolves
    or rejects. *)
Definition M (A : Type) : Type := Trace -> Trace * Outcome A.

Definition ret {A} (a : A) : M A := fun t => (t, Ok a).

Definition throw {A} (e : Error) : M A := fun t => (t, Throw e).

Definition bind {A B} (m : M A) (k : A -> M B) : M B :=
  fun t =>
    match m t with
    | (t', Ok a) => k a t'
    | (t', Throw e) => (t', Throw e)
    end.

(** [try { body } finally { cleanup }]: the clean-up always runs; its own
    failure replaces the body's outcome. *)
Definition tryFinally {A} (body : M A) (cleanup : M unit) : M A :=
  fun t =>
    let '(t', r) := body t in
    match cleanup t' with
    | (t'', Ok _) => (t'', r)
    | (t'', Throw e) => (t'', Throw e)
    end.

Definition lift {A} (o : Outcome A) : M A := fun t => (t, o).

(** One call of the environment: record it, then resolve or reject. *)
Definition call {A} (ev : Event) (answer : Trace -> option A) (e : Error)
  : M A :=
  fun t =>
    match answer t with
    | Some a => (t ++ [ev], Ok a)
    | None => (t ++ [ev], Throw e)
    end.

End Eff.
Import Eff.

Notation "x <- c1 ;; c2" := (bind c1 (fun x => c2))
  (at level 61, c1 at next level, right associativity).
Notation "c1 ;;; c2" := (bind c1 (fun _ => c2))
  (at level 61, right associativity).

Definition newline : ascii := "010"%char.

(** ** The program *)

Section SinfInjector.
Import JsString.

Variable W : World.
Variable L : Libs.

(** *** Calls of the environment *)

Definition execFileText (file : string) (args : list string)
           (cwd : option string) : M string :=
  call (ExecFile file args cwd)
       (fun t => execText W t file args cwd)
       (ArchiveToolFailure file).

Definition execFileBuffer (file : string) (args : list string)
           (cwd : option string) : M Buffer :=
  call (ExecFile file args cwd)
       (fun t => execBuffer W t file args cwd)
       (ArchiveToolFailure file).

Definition mkdtemp (prefix : string) : M string :=
  call (Mkdtemp prefix) (fun t => fs_mkdtemp W t prefix) (FsFailure "mkdtemp").

Definition unitAnswer (b : bool) : option unit :=
  if b then Some tt else None.

Definition mkdirRecursive (dir : string) : M unit :=
  call (Mkdir dir) (fun t => unitAnswer (fs_mkdir W t dir)) (FsFailure "mkdir").

Definition writeFile (file : string) (bytes : Buffer) : M unit :=
  call (WriteFile file bytes)
       (fun t => unitAnswer (fs_writeFile W t file bytes))
       (FsFailure "writeFile").

Definition rmRecursive (dir : string) : M unit :=
  call (Rm dir) (fun t => unitAnswer (fs_rm W t dir)) (FsFailure "rm").

(** *** ArchiveAccessor *)

Definition entriesOfLines (lines : list string) : list string :=
  flat_map (fun line =>
              match matchEntryLine L line with
              | Some name => [name]
              | None => []
              end) lines.

Definition listEntries (ipaPath : string) : M (list string) :=
  stdout <- execFileText "unzip" ["-l"; "--"; ipaPath] None ;;
  ret (entriesOfLines (split newline stdout)).

Definition readEntry (ipaPath entryPath : string) : M Buffer :=
  execFileBuffer "unzip" ["-p"; "--"; ipaPath; entryPath] None.

(** The guard of [addFilesToZip]: the resolved location lies strictly
    below the staging directory. *)
Definition insideStaging (tmpDir entry : string) : bool :=
  startsWith (Path.resolve (process_cwd W) [tmpDir; entry])
             (Path.resolve (process_cwd W) [tmpDir] ++ Path.sep)%string.

(** The [for (const file of files)] loop of [addFilesToZip];
    [relativePaths] is what has been pushed so far. *)
Fixpoint stageFiles (tmpDir : string) (files : list InjectFile)
         (relativePaths : list string) : M (list string) :=
  match files with
  | [] => ret relativePaths
  | file :: rest =>
      let fullPath :=
        Path.resolve (process_cwd W) [tmpDir; entryPath file] in
      if negb (insideStaging tmpDir (entryPath file))
      then throw (UnsafePath (entryPath file))
      else
        mkdirRecursive (Path.dirname fullPath) ;;;
        writeFile fullPath (data file) ;;;
        stageFiles tmpDir rest (relativePaths ++ [entryPath file])
  end.

Definition addFilesToZip (ipaPath : string) (files : list InjectFile)
  : M unit :=
  tmpDir <- mkdtemp (Path.joinPaths [os_tmpdir W; "sinf-"]) ;;
  tryFinally
    (relativePaths <- stageFiles tmpDir files [] ;;
     execFileText "zip" (["-0"; ipaPath; "--"] ++ relativePaths)
                  (Some tmpDir) ;;;
     ret tt)
    (rmRecursive tmpDir).

(** *** BundleLocator *)

(** The inner loop of [readBundleName] over the components of one path. *)
Fixpoint firstAppComponent (components : list string) : option string :=
  match components with
  | [] => None
  | c :: rest =>
      if endsWith c ".app" then Some (replace c ".app" "")
      else firstAppComponent rest
  end.

(** The test both [readBundleName] and [readInfoPlist] apply to an entry. *)
Definition isBundleInfoPlist (entry : string) : bool :=
  includes entry ".app/Info.plist" && negb (includes entry "/Watch/").

Fixpoint readBundleName (entries : list string) : Outcome string :=
  match entries with
  | [] => Throw BundleNotFound
  | entry :: rest =>
      if isBundleInfoPlist entry then
        match firstAppComponent (split "/" entry) with
        | Some name => Ok name
        | None => readBundleName rest
        end
      else readBundleName rest
  end.

(** *** PropertyListCodec: format detection *)

(** The second [try] block of [parsePlistBuffer]. *)
Definition parsePlistXml (bytes : Buffer) : PropertyValue :=
  let xml := Buffer_toString_utf8 L bytes in
  if includes xml "<?xml" || includes xml "<plist" then
    match plist_parse L xml with
    | Some parsed =>
        if truthy parsed && typeofObject parsed then parsed else PNull
    | None => PNull
    end
  else PNull.

Definition parsePlistBuffer (bytes : Buffer) : PropertyValue :=
  match bplistParser_parseBuffer L bytes with
  | Some (first :: _) => first
  | Some [] | None => parsePlistXml bytes
  end.

(** What [readManifestPlist] makes of the decoded tree: [if (parsed)], then
    [Array.isArray(parsed["SinfPaths"])]. *)
Definition manifestOf (parsed : PropertyValue) : option Manifest :=
  if truthy parsed then
    match getProp parsed "SinfPaths" with
    | Some (PArray paths) => Some {| sinfPaths := paths |}
    | _ => None
    end
  else None.

(** What [readInfoPlist] makes of the decoded tree: [if (parsed)], then
    [typeof parsed["CFBundleExecutable"] === "string"]. *)
Definition infoOf (parsed : PropertyValue) : option Info :=
  if truthy parsed then
    match getProp parsed "CFBundleExecutable" with
    | Some (PString executable) => Some {| bundleExecutable := executable |}
    | _ => None
    end
  else None.

Definition isManifestPlist (entry : string) : bool :=
  endsWith entry ".app/SC_Info/Manifest.plist".

Fixpoint readManifestPlist (ipaPath : string) (entries : list string)
  : M (option Manifest) :=
  match entries with
  | [] => ret None
  | entry :: rest =>
      if isManifestPlist entry then
        bytes <- readEntry ipaPath entry ;;
        ret (manifestOf (parsePlistBuffer bytes))
      else readManifestPlist ipaPath rest
  end.

Fixpoint readInfoPlist (ipaPath : string) (entries : list string)
  : M (option Info) :=
  match entries with
  | [] => ret None
  | entry :: rest =>
      if isBundleInfoPlist entry then
        bytes <- readEntry ipaPath entry ;;
        ret (infoOf (parsePlistBuffer bytes))
      else readInfoPlist ipaPath rest
  end.

(** *** InjectionPlanner *)

(** [`${v}`] *)
Definition template (v : PropertyValue) : Outcome string :=
  match v with
  | PString s => Ok s
  | _ =>
      match toStringJs L v with
      | Some text => Ok text
      | None => Throw TypeError
      end
  end.

Definition sinfBytes (s : Sinf) : Buffer := Buffer_from_base64 L (sinf s).

(** The manifest loop of [inject], from index [i] on, [paths] being
    [manifest.sinfPaths] from that index. An element the template literal
    cannot render ends the loop, and the call, with its [TypeError]. *)
Fixpoint manifestFiles (bundleName : string) (sinfs : list Sinf) (i : nat)
         (paths : list PropertyValue) : Outcome (list InjectFile) :=
  match paths with
  | [] => Ok []
  | sinfPath :: rest =>
      match nth_error sinfs i with
      | None => manifestFiles bundleName sinfs (S i) rest
      | Some s =>
          match template sinfPath with
          | Throw e => Throw e
          | Ok text =>
              match manifestFiles bundleName sinfs (S i) rest with
              | Throw e => Throw e
              | Ok files =>
                  Ok ({| entryPath :=
                           ("Payload/" ++ bundleName ++ ".app/" ++ text)%string;
                         data := sinfBytes s |}
                      :: files)
              end
          end
      end
  end.

(** The info-plist branch of [inject]. *)
Definition fallbackFiles (bundleName : string) (sinfs : list Sinf)
           (info : Info) : list InjectFile :=
  match sinfs with
  | first :: _ =>
      [{| entryPath :=
            ("Payload/" ++ bundleName ++ ".app/SC_Info/"
             ++ bundleExecutable info ++ ".sinf")%string;
          data := sinfBytes first |}]
  | [] => []
  end.

(** Lines 24 to 48 of [inject]: the DRM part of [filesToInject]. *)
Definition sinfFiles (sinfs : list Sinf) (ipaPath : string)
           (entries : list string) (bundleName : string)
  : M (list InjectFile) :=
  manifest <- readManifestPlist ipaPath entries ;;
  match manifest with
  | Some m => lift (manifestFiles bundleName sinfs 0 (sinfPaths m))
  | None =>
      info <- readInfoPlist ipaPath entries ;;
      match info with
      | Some i => ret (fallbackFiles bundleName sinfs i)
      | None => throw LocatorFailed
      end
  end.

(** The conversion of the metadata payload: binary re-encoding, or the
    decoded bytes as they are when parsing or encoding throws. *)
Definition metadataBuffer (xmlBuffer : Buffer) : Buffer :=
  match plist_parse L (Buffer_toString_utf8 L xmlBuffer) with
  | Some parsed =>
      match bplistCreator L parsed with
      | Some encoded => encoded
      | None => xmlBuffer
      end
  | None => xmlBuffer
  end.

(** Lines 53 to 67 of [inject]: [if (iTunesMetadata)] holds for a string
    that is present and not empty. *)
Definition metadataFiles (iTunesMetadata : option string)
  : list InjectFile :=
  match iTunesMetadata with
  | Some text =>
      if isEmpty text then []
      else [{| entryPath := "iTunesMetadata.plist";
               data := metadataBuffer (Buffer_from_base64 L text) |}]
  | None => []
  end.

(** [inject] up to the point where [filesToInject] is complete. *)
Definition planFiles (sinfs : list Sinf) (ipaPath : string)
           (iTunesMetadata : option string) : M (list InjectFile) :=
  entries <- listEntries ipaPath ;;
  bundleName <- lift (readBundleName entries) ;;
  drm <- sinfFiles sinfs ipaPath entries bundleName ;;
  ret (drm ++ metadataFiles iTunesMetadata).

Definition inject (sinfs : list Sinf) (ipaPath : string)
           (iTunesMetadata : option string) : M unit :=
  filesToInject <- planFiles sinfs ipaPath iTunesMetadata ;;
  match filesToInject with
  | [] => ret tt
  | _ :: _ => addFilesToZip ipaPath filesToInject
  end.

End SinfInjector.


(** ** Observations on traces and inputs *)

(** The archive is only read: an [unzip] process. *)
Definition isArchiveRead (ev : Event) : bool :=
  match ev with
  | ExecFile file _ _ => String.eqb file "unzip"
  | _ => false
  end.

(** The archive is updated: a [zip] process. *)
Definition isArchiveUpdate (ev : Event) : bool :=
  match ev with
  | ExecFile file _ _ => String.eqb file "zip"
  | _ => false
  end.

(** Every event a computation adds to the trace satisfies [P]. *)
Definition emits {A : Type} (P : Event -> Prop) (m : M A) : Prop :=
  forall t, exists d, fst (m t) = t ++ d /\ Forall P d.

(** The two file-system mutations [addFilesToZip] performs for one item. *)
Definition stagingEventOf (W : World) (tmpDir : string) (f : InjectFile)
           (ev : Event) : Prop :=
  let fullPath := Path.resolve (process_cwd W) [tmpDir; entryPath f] in
  ev = Mkdir (Path.dirname fullPath) \/ ev = WriteFile fullPath (data f).

(** An item the guard of [addFilesToZip] refuses. *)
Definition escapesStaging (W : World) (tmpDir : string) (f : InjectFile)
  : bool :=
  negb (insideStaging W tmpDir (entryPath f)).

(** A file system on which no call made while staging fails. *)
Definition fsNeverFails (W : World) : Prop :=
  (forall t dir, fs_mkdir W t dir = true)
  /\ (forall t file bytes, fs_writeFile W t file bytes = true)
  /\ (forall t dir, fs_rm W t dir = true).

(** The prefix handed to [mkdtemp]. *)
Definition stagingPrefix (W : World) : string :=
  Path.joinPaths [os_tmpdir W; "sinf-"].

(** A path with a parent-directory segment. *)
Definition hasParentSegment (p : string) : bool :=
  existsb (fun seg => String.eqb seg "..") (JsString.split "/" p).

Definition bytesOfString (s : string) : Buffer :=
  map byte_of_ascii (list_ascii_of_string s).

Definition stringOfBytes (b : Buffer) : string :=
  string_of_list_ascii (map ascii_of_byte b).

(** The buffer starts with the eight bytes of a binary property list. *)
Definition hasBinaryMagic (bytes : Buffer) : bool :=
  JsString.startsWith (stringOfBytes (firstn 8 bytes)) "bplist00".

(** The same libraries with another XML parser. *)
Definition withPlistParse (L : Libs) (xml : string -> option PropertyValue)
  : Libs :=
  {| bplistParser_parseBuffer := bplistParser_parseBuffer L;
     plist_parse := xml;
     bplistCreator := bplistCreator L;
     Buffer_from_base64 := Buffer_from_base64 L;
     Buffer_toString_utf8 := Buffer_toString_utf8 L;
     toStringJs := toStringJs L;
     matchEntryLine := matchEntryLine L |}.

(** The item the manifest loop plans for one path and one blob. *)
Definition manifestItem (L : Libs) (bundleName : string)
           (slot : string * Sinf) : InjectFile :=
  {| entryPath := ("Payload/" ++ bundleName ++ ".app/" ++ fst slot)%string;
     data := sinfBytes L (snd slot) |}.

(** The item planned for the metadata payload. *)
Definition metadataItem (L : Libs) (text : string) : InjectFile :=
  {| entryPath := "iTunesMetadata.plist";
     data := metadataBuffer L (Buffer_from_base64 L text) |}.

Definition isMetadataPath (f : InjectFile) : bool :=
  String.eqb (entryPath f) "iTunesMetadata.plist".

Definition mapOutcome {A B : Type} (f : A -> B) (o : Outcome A) : Outcome B :=
  match o with
  | Ok a => Ok (f a)
  | Throw e => Throw e
  end.

Definition readsOnly (ev : Event) : Prop := isArchiveRead ev = true.

(** The test of the inner loop of [readBundleName]. *)
Definition endsWithApp (c : string) : bool := JsString.endsWith c ".app".

(** An event that comes from staging an item the guard let through. *)
Definition stagedFrom (W : World) (tmpDir : string) (files : list InjectFile)
           (ev : Event) : Prop :=
  exists f, In f files /\ escapesStaging W tmpDir f = false
            /\ stagingEventOf W tmpDir f ev.

(** If the event is a process, it is the one archive update of the batch:
    [zip -0 archive -- path...], the paths in the order of [files]. *)
Definition updateOf (ipaPath : string) (files : list InjectFile)
           (ev : Event) : Prop :=
  match ev with
  | ExecFile file args _ =>
      file = "zip" /\ args = ["-0"; ipaPath; "--"] ++ map entryPath files
  | _ => True
  end.

(** If the event is an archive update, the metadata file is its last
    operand, after the DRM items. *)
Definition metadataLast (ipaPath : string) (ev : Event) : Prop :=
  isArchiveUpdate ev = true ->
  exists drmPaths cwd,
    ev = ExecFile "zip"
                  (["-0"; ipaPath; "--"] ++ drmPaths ++ ["iTunesMetadata.plist"])
                  cwd.

(** The items planned for a list of (manifest path, blob) pairs, in order;
    a path the template literal cannot render is the failure of the
    whole. *)
Fixpoint planSlots (L : Libs) (bundleName : string)
         (slots : list (PropertyValue * Sinf)) : Outcome (list InjectFile) :=
  match slots with
  | [] => Ok []
  | (path, blob) :: rest =>
      match template L path with
      | Throw e => Throw e
      | Ok text =>
          match planSlots L bundleName rest with
          | Throw e => Throw e
          | Ok files =>
              Ok ({| entryPath :=
                       ("Payload/" ++ bundleName ++ ".app/" ++ text)%string;
                     data := Buffer_from_base64 L (sinf blob) |}
                  :: files)
          end
      end
  end.

(** Staging [files] from trace [t] on, every [mkdir] and every [writeFile]
    succeeds when its turn comes. *)
Fixpoint stagingCallsSucceed (W : World) (tmpDir : string)
         (files : list InjectFile) (t : Trace) : bool :=
  match files with
  | [] => true
  | f :: rest =>
      let fullPath := Path.resolve (process_cwd W) [tmpDir; entryPath f] in
      let dir := Path.dirname fullPath in
      fs_mkdir W t dir
      && fs_writeFile W (t ++ [Mkdir dir]) fullPath (data f)
      && stagingCallsSucceed W tmpDir rest
                             (t ++ [Mkdir dir; WriteFile fullPath (data f)])
  end.

(** ** The line pattern of [listEntries]

    The regular expression
    [/^\s*\d+\s+\d{2}-\d{2}-\d{2,4}\s+\d{2}:\d{2}\s+(.+)$/] is a sequence of
    character classes, each repeated greedily between two bounds, anchored
    at both ends of the line, the last repetition being captured. Matching
    follows the backtracking of the JavaScript engine: a repetition first
    takes as many characters as it can and gives them back one by one when
    what follows does not match. Character classes are given on the code
    units below 256. *)

Module LinePattern.

Record Term : Type := {
  cls : ascii -> bool;
  lo : nat;
  hi : option nat;
  captured : bool
}.

Definition code (a : ascii) : nat := nat_of_ascii a.

(** [\s]: tab, line feed, vertical tab, form feed, carriage return, space,
    no-break space. *)
Definition isWhiteSpace (a : ascii) : bool :=
  (Nat.leb 9 (code a) && Nat.leb (code a) 13)
  || Nat.eqb (code a) 32 || Nat.eqb (code a) 160.

(** [\d] *)
Definition isDigit (a : ascii) : bool :=
  Nat.leb 48 (code a) && Nat.leb (code a) 57.

(** [.]: anything but a line feed or a carriage return. *)
Definition isDot (a : ascii) : bool :=
  negb (Nat.eqb (code a) 10 || Nat.eqb (code a) 13).

Definition only (c : ascii) (a : ascii) : bool := Ascii.eqb a c.

Definition star (c : ascii -> bool) : Term :=
  {| cls := c; lo := 0; hi := None; captured := false |}.
Definition plus (c : ascii -> bool) : Term :=
  {| cls := c; lo := 1; hi := None; captured := false |}.
Definition between (m n : nat) (c : ascii -> bool) : Term :=
  {| cls := c; lo := m; hi := Some n; captured := false |}.
Definition times (n : nat) (c : ascii -> bool) : Term := between n n c.
Definition group (tm : Term) : Term :=
  {| cls := cls tm; lo := lo tm; hi := hi tm; captured := true |}.

(** The pattern, term by term. *)
Definition entryLine : list Term :=
  [star isWhiteSpace; plus isDigit; plus isWhiteSpace;
   times 2 isDigit; times 1 (only "-"); times 2 isDigit; times 1 (only "-");
   between 2 4 isDigit; plus isWhiteSpace;
   times 2 isDigit; times 1 (only ":"); times 2 isDigit; plus isWhiteSpace;
   group (plus isDot)].

Definition mayTakeMore (tm : Term) (count : nat) : bool :=
  match hi tm with
  | None => true
  | Some n => Nat.ltb count n
  end.

Definition record (tm : Term) (taken : string)
           (rest : option (list string)) : option (list string) :=
  match rest with
  | Some groups => Some (if captured tm then taken :: groups else groups)
  | None => None
  end.

(** One greedy repetition: [count] characters, [taken], have been consumed
    so far; [k] matches what follows the repetition. *)
Fixpoint greedy (tm : Term) (k : string -> option (list string))
         (count : nat) (taken : string) (s : string)
  : option (list string) :=
  let stop :=
    if Nat.leb (lo tm) count then record tm taken (k s) else None in
  match s with
  | EmptyString => stop
  | String a s' =>
      if cls tm a && mayTakeMore tm count then
        match greedy tm k (S count) (taken ++ String a EmptyString) s' with
        | Some groups => Some groups
        | None => stop
        end
      else stop
  end.

(** The whole sequence against the whole string; the result lists the
    captured texts. *)
Fixpoint matchTerms (terms : list Term) (s : string)
  : option (list string) :=
  match terms with
  | [] => if JsString.isEmpty s then Some [] else None
  | tm :: rest => greedy tm (matchTerms rest) 0 EmptyString s
  end.

(** [s.trim()] *)
Definition trim (s : string) : string :=
  string_of_list_ascii
    (List.rev
       (Path.dropWhile isWhiteSpace
          (List.rev
             (Path.dropWhile isWhiteSpace (list_ascii_of_string s))))).

(** [line.match(pattern)] followed by [match[1].trim()]. *)
Definition matchEntryLine (line : string) : option string :=
  match matchTerms entryLine line with
  | Some (name :: _) => Some (trim name)
  | _ => None
  end.

(** A string the term can consume: all of its class, as many as allowed. *)
Definition fits (tm : Term) (run : string) : Prop :=
  forallb (cls tm) (list_ascii_of_string run) = true
  /\ lo tm <= String.length run
  /\ match hi tm with
     | None => True
     | Some n => String.length run <= n
     end.

Fixpoint concat (runs : list string) : string :=
  match runs with
  | [] => EmptyString
  | r :: rs => (r ++ concat rs)%string
  end.

(** The first character, if any, is not of the class. *)
Definition headFails (c : ascii -> bool) (s : string) : bool :=
  match s with
  | EmptyString => true
  | String a _ => negb (c a)
  end.

Definition all (c : ascii -> bool) (s : string) : bool :=
  forallb c (list_ascii_of_string s).

(** An entry name that comes back as it is: not empty, no white space at
    either end, no line break inside. *)
Definition plainName (name : string) : bool :=
  all isDot name
  && negb (headFails (fun a => negb (isWhiteSpace a)) name)
  && match List.rev (list_ascii_of_string name) with
     | [] => false
     | a :: _ => negb (isWhiteSpace a)
     end.

(** The parts of a line the pattern tells apart. *)
Record Fields : Type := {
  pad : string;
  size : string;
  gap1 : string;
  month : string;
  day : string;
  year : string;
  gap2 : string;
  hour : string;
  minute : string;
  gap3 : string;
  raw : string
}.

Definition render (f : Fields) : string :=
  (pad f ++ size f ++ gap1 f
   ++ month f ++ "-" ++ day f ++ "-" ++ year f ++ gap2 f
   ++ hour f ++ ":" ++ minute f ++ gap3 f ++ raw f)%string.

(** Between [m] and [n] characters, all of the class. *)
Definition span (c : ascii -> bool) (m n : nat) (s : string) : bool :=
  all c s && Nat.leb m (String.length s) && Nat.leb (String.length s) n.

(** At least one character, all of the class. *)
Definition span1 (c : ascii -> bool) (s : string) : bool :=
  all c s && Nat.leb 1 (String.length s).

(** The lines the pattern accepts: white space, a number, a date of two,
    two and two to four digits, a time of two and two digits, and a text
    without line break, with white space in between. *)
Definition wellFormed (f : Fields) : bool :=
  all isWhiteSpace (pad f)
  && span1 isDigit (size f)
  && span1 isWhiteSpace (gap1 f)
  && span isDigit 2 2 (month f)
  && span isDigit 2 2 (day f)
  && span isDigit 2 4 (year f)
  && span1 isWhiteSpace (gap2 f)
  && span isDigit 2 2 (hour f)
  && span isDigit 2 2 (minute f)
  && span1 isWhiteSpace (gap3 f)
  && span1 isDot (raw f).

(** The texts of the captured terms, given what each term consumed. *)
Fixpoint capturedRuns (terms : list Term) (runs : list string)
  : list string :=
  match terms, runs with
  | tm :: terms', r :: runs' =>
      if captured tm then r :: capturedRuns terms' runs'
      else capturedRuns terms' runs'
  | _, _ => []
  end.

End LinePattern.

(** ** The bundle locator in the words of the specification *)

Module Spec.
Import JsString.

Fixpoint take (n : nat) (s : string) : string :=
  match n, s with
  | O, _ => EmptyString
  | S _, EmptyString => EmptyString
  | S n', String a s' => String a (take n' s')
  end.

(** [<Name>] of a path of the shape [.../<Name>.app/Info.plist] that has no
    [/Watch/] in it. *)
Definition bundleNameOf (entry : string) : option string :=
  if includes entry "/Watch/" then None
  else
    match List.rev (split "/" entry) with
    | last :: app :: _ =>
        if String.eqb last "Info.plist" && endsWith app ".app"
        then Some (take (String.length app - 4) app)
        else None
    | _ => None
    end.

(** [findBundleRoot] as section 4.3 words it: the first entry of that shape
    gives the name, and there is [BundleNotFound] without one. *)
Fixpoint findBundleRoot (entries : list string) : Outcome string :=
  match entries with
  | [] => Throw BundleNotFound
  | entry :: rest =>
      match bundleNameOf entry with
      | Some name => Ok name
      | None => findBundleRoot rest
      end
  end.

End Spec.

(** ** A sample environment

    A small archive, a file system that never fails and libraries given on
    the sample inputs, where they answer as the real ones do; they serve
    the concrete runs further down. *)

Module Sample.
Import JsString.

Fixpoint lookup (key : string) (kvs : list (string * Buffer))
  : option Buffer :=
  match kvs with
  | [] => None
  | (k, v) :: rest => if String.eqb k key then Some v else lookup key rest
  end.

(** One row of [unzip -l], the date written month first. *)
Definition listingLine (name : string) : string :=
  ("        0  01-31-2024 00:00   " ++ name)%string.

(** The output of [unzip -l]: the archive name, two header lines, one line
    per entry, two trailer lines. *)
Definition listingOf (ipaPath : string) (archive : list (string * Buffer))
  : string :=
  join (String newline EmptyString)
       ([("Archive:  " ++ ipaPath)%string;
         "  Length      Date    Time    Name";
         "---------  ---------- -----   ----"]
        ++ map (fun kv => listingLine (fst kv)) archive
        ++ ["---------                     -------";
            "        0                     files"]).

(** [unzip -l -- archive] lists, [unzip -p -- archive entry] extracts a
    member or fails, [zip] succeeds; [mkdtemp] appends six characters. *)
Definition world (archive : list (string * Buffer)) : World :=
  {| process_cwd := "/srv/backend";
     os_tmpdir := "/tmp";
     execText := fun _ file args _ =>
       if String.eqb file "unzip" then
         match args with
         | [_; _; ipaPath] => Some (listingOf ipaPath archive)
         | _ => None
         end
       else if String.eqb file "zip" then Some "" else None;
     execBuffer := fun _ file args _ =>
       match args with
       | [_; _; _; entry] => lookup entry archive
       | _ => None
       end;
     fs_mkdtemp := fun _ prefix => Some (prefix ++ "AbCdEf")%string;
     fs_mkdir := fun _ _ => true;
     fs_writeFile := fun _ _ _ => true;
     fs_rm := fun _ _ => true |}.

(** The last 32 bytes of a binary property list with four objects, one-byte
    offsets and references, the top object first and the offset table at
    [tableOffset]. *)
Definition trailer (tableOffset : byte) : Buffer :=
  [x00; x00; x00; x00; x00; x00; x01; x01;
   x00; x00; x00; x00; x00; x00; x00; x04;
   x00; x00; x00; x00; x00; x00; x00; x00;
   x00; x00; x00; x00; x00; x00; x00; tableOffset].

(** A binary property list holding [{ SinfPaths: ["SC_Info/Foo.sinf"] }]:
    the header; at offset 8 a mapping of one entry (key object 1, value
    object 2); at 11 the nine-letter key; at 21 an array of one element
    (object 3); at 23 a string of sixteen letters, its length given as an
    integer object; at 42 the offset table; the trailer. *)
Definition manifestBytes : Buffer :=
  bytesOfString "bplist00"
  ++ [xd1; x01; x02]
  ++ [x59] ++ bytesOfString "SinfPaths"
  ++ [xa1; x03]
  ++ [x5f; x10; x10] ++ bytesOfString "SC_Info/Foo.sinf"
  ++ [x08; x0b; x15; x17]
  ++ trailer x2a.

Definition manifestTree : PropertyValue :=
  PDict [("SinfPaths", PArray [PString "SC_Info/Foo.sinf"])].

Definition infoText : string :=
  "<?xml version='1.0' encoding='UTF-8'?><plist version='1.0'><dict><key>CFBundleExecutable</key><string>Foo</string></dict></plist>".

Definition infoTree : PropertyValue :=
  PDict [("CFBundleExecutable", PString "Foo")].

(** A buffer with the magic header and nothing a binary property list
    needs after it. *)
Definition truncatedBinary : Buffer :=
  bytesOfString "bplist00<plist version=1.0><dict/></plist>".

(** What a template literal makes of a value: [null], booleans and
    integers in words and digits, a byte blob as its text, an array as its
    elements joined by commas ([null] elements empty), a mapping as
    [[object Object]] unless an own [toString] entry, which cannot be
    called, leaves it without a primitive form. How the host prints a real
    number or a date is not modelled: no sample value holds one. *)
Fixpoint toStringOf (v : PropertyValue) : option string :=
  match v with
  | PNull => Some "null"
  | PString s => Some s
  | PInteger n => Some (DecimalString.NilZero.string_of_int (Z.to_int n))
  | PReal _ => Some "NaN"
  | PBool b => Some (if b then "true" else "false")
  | PData d => Some (stringOfBytes d)
  | PDate _ => Some "Invalid Date"
  | PArray xs =>
      match
        (fix elements (l : list PropertyValue) : option (list string) :=
           match l with
           | [] => Some []
           | x :: l' =>
               match
                 match x with PNull => Some EmptyString | _ => toStringOf x end,
                 elements l'
               with
               | Some text, Some texts => Some (text :: texts)
               | _, _ => None
               end
           end) xs
      with
      | Some texts => Some (join "," texts)
      | None => None
      end
  | PDict kvs =>
      match assoc "toString" kvs with
      | Some _ => None
      | None => Some "[object Object]"
      end
  end.

(** The libraries on the sample inputs: the binary parser decodes
    [manifestBytes] and throws on the other sample buffers, none of which
    is a binary property list; the XML parser knows [infoText]; base64
    decoding is given on three texts; the line pattern is the program's
    own. The binary encoder is not reached by any sample run. *)
Definition libs : Libs :=
  {| bplistParser_parseBuffer := fun bytes =>
       if String.eqb (stringOfBytes bytes) (stringOfBytes manifestBytes)
       then Some [manifestTree] else None;
     plist_parse := fun text =>
       if String.eqb text infoText then Some infoTree else None;
     bplistCreator := fun _ => Some (bytesOfString "bplist00");
     Buffer_from_base64 := fun text =>
       if String.eqb text "AQID" then [x01; x02; x03]
       else if String.eqb text "BAUG" then [x04; x05; x06]
       else if String.eqb text "bm90IHhtbA==" then bytesOfString "not xml"
       else [];
     Buffer_toString_utf8 := stringOfBytes;
     toStringJs := toStringOf;
     matchEntryLine := LinePattern.matchEntryLine |}.

(** The archive of the end-to-end scenario. *)
Definition fooArchive : list (string * Buffer) :=
  [("Payload/Foo.app/Info.plist", bytesOfString infoText);
   ("Payload/Foo.app/SC_Info/Manifest.plist", manifestBytes);
   ("Payload/Foo.app/SC_Info/Foo", [x00])].

(** The same bundle without a manifest. *)
Definition plainArchive : list (string * Buffer) :=
  [("Payload/Foo.app/Info.plist", bytesOfString infoText);
   ("Payload/Foo.app/Foo", [x00])].

(** A manifest that lies under another bundle than the one located. *)
Definition twoBundleArchive : list (string * Buffer) :=
  [("Payload/Foo.app/Info.plist", bytesOfString infoText);
   ("Payload/Bar.app/SC_Info/Manifest.plist", manifestBytes)].

Definition blob1 : Sinf := {| id := 0; sinf := "AQID" |}.
Definition blob2 : Sinf := {| id := 1; sinf := "BAUG" |}.

Definition safeItem : InjectFile :=
  {| entryPath := "Payload/Foo.app/SC_Info/Foo.sinf"; data := [x01; x02; x03] |}.

Definition escapingItem : InjectFile :=
  {| entryPath := "../../etc/passwd"; data := [x04; x05; x06] |}.

(** A destination with a parent-directory segment that stays inside. *)
Definition detourItem : InjectFile :=
  {| entryPath := "Payload/Foo.app/SC_Info/../SC_Info/Foo.sinf";
     data := [x01; x02; x03] |}.

Definition staging : string := "/tmp/sinf-AbCdEf".

(** A file system like that of [world], except that removing the staging
    directory fails. *)
Definition worldWithFailingRm (archive : list (string * Buffer)) : World :=
  {| process_cwd := process_cwd (world archive);
     os_tmpdir := os_tmpdir (world archive);
     execText := execText (world archive);
     execBuffer := execBuffer (world archive);
     fs_mkdtemp := fs_mkdtemp (world archive);
     fs_mkdir := fs_mkdir (world archive);
     fs_writeFile := fs_writeFile (world archive);
     fs_rm := fun _ _ => false |}.

End Sample.

(** ** Further observations on [addFilesToZip] and [inject] *)

(** What staging a batch adds to the trace when every item passes the guard
    and no call fails: per item, in order, its [mkdir] and its
    [writeFile]. *)
Definition stagingEvents (W : World) (tmpDir : string)
           (files : list InjectFile) : list Event :=
  flat_map (fun f =>
              let fullPath :=
                Path.resolve (process_cwd W) [tmpDir; entryPath f] in
              [Mkdir (Path.dirname fullPath); WriteFile fullPath (data f)])
           files.

(** The archive update of a batch staged in [tmpDir]. *)
Definition zipCall (ipaPath : string) (files : list InjectFile)
           (tmpDir : string) : Event :=
  ExecFile "zip" (["-0"; ipaPath; "--"] ++ map entryPath files) (Some tmpDir).

(** The [finally] block of [addFilesToZip], entered at trace [t] with the
    outcome [r] of the [try] block. *)
Definition finishStaging (W : World) (tmpDir : string) (t : Trace)
           (r : Outcome unit) : Trace * Outcome unit :=
  (t ++ [Rm tmpDir],
   if fs_rm W t tmpDir then r else Throw (FsFailure "rm")).

Definition isRm (ev : Event) : bool :=
  match ev with
  | Rm _ => true
  | _ => false
  end.

(** If the event writes a file, the file is the resolved destination of an
    item of the batch, carries that item's bytes, and lies strictly below
    the staging directory [mkdtemp] returned at trace [t]. *)
Definition writesInsideStaging (W : World) (t : Trace)
           (files : list InjectFile) (ev : Event) : Prop :=
  match ev with
  | WriteFile file bytes =>
      exists tmpDir f,
        fs_mkdtemp W t (stagingPrefix W) = Some tmpDir
        /\ In f files
        /\ file = Path.resolve (process_cwd W) [tmpDir; entryPath f]
        /\ bytes = data f
        /\ JsString.startsWith
             file (Path.resolve (process_cwd W) [tmpDir] ++ Path.sep)%string
           = true
  | _ => True
  end.

(** A path component that names something: not empty, not [.], not [..]. *)
Definition properSegment (seg : string) : bool :=
  negb (JsString.isEmpty seg || String.eqb seg "." || String.eqb seg "..").

(** The character does not occur in the string. *)
Fixpoint lacksChar (c : ascii) (s : string) : bool :=
  match s with
  | EmptyString => true
  | String a s' => negb (Ascii.eqb a c) && lacksChar c s'
  end.

(** A segment [normalizeString] keeps: a proper one, cut at slashes. *)
Definition keptSegment (seg : string) : Prop :=
  properSegment seg = true /\ lacksChar "/" seg = true.

(** The text of a listing: the lines before the rows, one line per row,
    the lines after, joined by line feeds. *)
Definition listing (before : list string) (rows : list LinePattern.Fields)
           (after : list string) : string :=
  JsString.join (String newline EmptyString)
                (before ++ map LinePattern.render rows ++ after).

(** The string without its leading white space. *)
Fixpoint skipBlank (s : string) : string :=
  match s with
  | EmptyString => EmptyString
  | String a s' => if LinePattern.isWhiteSpace a then skipBlank s' else s
  end.

(** A line that is no row: no line feed in it, and either no colon or
    something else than a digit after the leading white space. *)
Definition noRow (line : string) : bool :=
  lacksChar newline line
  && (lacksChar ":" line
      || LinePattern.headFails LinePattern.isDigit (skipBlank line)).

(** A row whose line holds no line feed and whose text is a plain name. *)
Definition plainRow (f : LinePattern.Fields) : bool :=
  LinePattern.wellFormed f
  && LinePattern.plainName (LinePattern.raw f)
  && lacksChar newline (LinePattern.render f).

(** The libraries with the line pattern of [listEntries] in place. *)
Definition withLinePattern (L : Libs) : Libs :=
  {| bplistParser_parseBuffer := bplistParser_parseBuffer L;
     plist_parse := plist_parse L;
     bplistCreator := bplistCreator L;
     Buffer_from_base64 := Buffer_from_base64 L;
     Buffer_toString_utf8 := Buffer_toString_utf8 L;
     toStringJs := toStringJs L;
     matchEntryLine := LinePattern.matchEntryLine |}.

(** ** A listing with month-first dates

    The sample archive listed the way the pattern expects: the date as
    month, day and year. The head and the foot are those [unzip -l]
    prints. *)

Module MonthFirst.

Definition row (name : string) : LinePattern.Fields :=
  {| LinePattern.pad := "        ";
     LinePattern.size := "0";
     LinePattern.gap1 := "  ";
     LinePattern.month := "01";
     LinePattern.day := "31";
     LinePattern.year := "2024";
     LinePattern.gap2 := " ";
     LinePattern.hour := "00";
     LinePattern.minute := "00";
     LinePattern.gap3 := "   ";
     LinePattern.raw := name |}.

Definition head : list string :=
  ["Archive:  app.ipa";
   "  Length      Date    Time    Name";
   "---------  ---------- -----   ----"].

Definition foot : list string :=
  ["---------                     -------";
   "        0                     3 files"].

Definition rowsOf (archive : list (string * Buffer))
  : list LinePattern.Fields :=
  map (fun kv => row (fst kv)) archive.

(** [Sample.world] with the listing in that form. *)
Definition world (archive : list (string * Buffer)) : World :=
  {| process_cwd := process_cwd (Sample.world archive);
     os_tmpdir := os_tmpdir (Sample.world archive);
     execText := fun t file args cwd =>
       if String.eqb file "unzip"
       then Some (listing head (rowsOf archive) foot)
       else execText (Sample.world archive) t file args cwd;
     execBuffer := execBuffer (Sample.world archive);
     fs_mkdtemp := fs_mkdtemp (Sample.world archive);
     fs_mkdir := fs_mkdir (Sample.world archive);
     fs_writeFile := fs_writeFile (Sample.world archive);
     fs_rm := fs_rm (Sample.world archive) |}.

End MonthFirst.

(** ** A listing with year-first dates

    The sample archive listed the way the comment above the pattern shows
    it. *)

Module YearFirst.

Definition listingOf (archive : list (string * Buffer)) : string :=
  JsString.join
    (String newline EmptyString)
    (["  Length      Date    Time    Name";
      "---------  ---------- -----   ----"]
     ++ map (fun kv => ("        0  2024-01-01 00:00   " ++ fst kv)%string)
            archive
     ++ ["---------                     -------";
         "        0                     files"]).

(** [Sample.world] with the listing in that form. *)
Definition world (archive : list (string * Buffer)) : World :=
  {| process_cwd := process_cwd (Sample.world archive);
     os_tmpdir := os_tmpdir (Sample.world archive);
     execText := fun t file args cwd =>
       if String.eqb file "unzip" then Some (listingOf archive)
       else execText (Sample.world archive) t file args cwd;
     execBuffer := execBuffer (Sample.world archive);
     fs_mkdtemp := fs_mkdtemp (Sample.world archive);
     fs_mkdir := fs_mkdir (Sample.world archive);
     fs_writeFile := fs_writeFile (Sample.world archive);
     fs_rm := fs_rm (Sample.world archive) |}.

End YearFirst.

(** ** Archives that do not cooperate *)

Module Hostile.

(** An info plist nothing can be made of, and no manifest. *)
Definition brokenArchive : list (string * Buffer) :=
  [("Payload/Foo.app/Info.plist", bytesOfString "junk")].

(** A manifest whose path climbs out of the bundle and of the staging
    directory: a binary property list like [Sample.manifestBytes], the
    string being of twenty-three letters and the offset table at 49. *)
Definition climbingBytes : Buffer :=
  bytesOfString "bplist00"
  ++ [xd1; x01; x02]
  ++ [x59] ++ bytesOfString "SinfPaths"
  ++ [xa1; x03]
  ++ [x5f; x10; x17] ++ bytesOfString "../../../etc/cron.d/job"
  ++ [x08; x0b; x15; x17]
  ++ Sample.trailer x31.

Definition climbingTree : PropertyValue :=
  PDict [("SinfPaths", PArray [PString "../../../etc/cron.d/job"])].

Definition climbingArchive : list (string * Buffer) :=
  [("Payload/Foo.app/Info.plist", bytesOfString Sample.infoText);
   ("Payload/Foo.app/SC_Info/Manifest.plist", climbingBytes)].

(** [Sample.libs] with a binary parser that decodes [climbingBytes]. *)
Definition climbingLibs : Libs :=
  {| bplistParser_parseBuffer := fun bytes =>
       if String.eqb (stringOfBytes bytes) (stringOfBytes climbingBytes)
       then Some [climbingTree] else None;
     plist_parse := plist_parse Sample.libs;
     bplistCreator := bplistCreator Sample.libs;
     Buffer_from_base64 := Buffer_from_base64 Sample.libs;
     Buffer_toString_utf8 := Buffer_toString_utf8 Sample.libs;
     toStringJs := toStringJs Sample.libs;
     matchEntryLine := matchEntryLine Sample.libs |}.

Definition climbingItem : InjectFile :=
  {| entryPath := "Payload/Foo.app/../../../etc/cron.d/job";
     data := [x01; x02; x03] |}.

(** A manifest path that is a mapping with an own [toString] entry. *)
Definition unprintable : PropertyValue :=
  PDict [("toString", PString "x")].

End Hostile.
(** * Properties *)

(** ** Facts about the string primitives *)

Section StringFacts.
Import JsString.

Lemma startsWith_app (p r : string) : startsWith (p ++ r) p = true.
Proof.
  induction p as [|a p IH]; simpl; [reflexivity|].
  now rewrite Ascii.eqb_refl, IH.
Qed.

Lemma startsWith_inv (s p : string) :
  startsWith s p = true -> exists r, s = (p ++ r)%string.
Proof.
  revert s; induction p as [|b p IH]; intros s H; simpl in *.
  - now exists s.
  - destruct s as [|a s]; [discriminate|].
    apply andb_true_iff in H as [Hab Hs].
    apply Ascii.eqb_eq in Hab; subst b.
    destruct (IH _ Hs) as [r ->]. now exists r.
Qed.

Lemma endsWith_app (a suffix : string) : endsWith (a ++ suffix) suffix = true.
Proof.
  induction a as [|c a IH]; cbn [append endsWith].
  - destruct suffix; cbn [endsWith]; now rewrite String.eqb_refl.
  - rewrite IH. apply orb_true_r.
Qed.

Lemma endsWith_inv (s suffix : string) :
  endsWith s suffix = true -> exists a, s = (a ++ suffix)%string.
Proof.
  induction s as [|c s IH]; cbn [endsWith]; intros H.
  - rewrite orb_false_r in H. apply String.eqb_eq in H. now exists "".
  - apply orb_true_iff in H as [H|H].
    + apply String.eqb_eq in H. now exists "".
    + destruct (IH H) as [a ->]. now exists (String c a).
Qed.

Lemma includes_inv (s needle : string) :
  includes s needle = true ->
  exists a b, s = (a ++ needle ++ b)%string.
Proof.
  induction s as [|c s IH]; simpl; intros H.
  - rewrite orb_false_r in H.
    destruct (startsWith_inv _ _ H) as [r Hr]. now exists "", r.
  - apply orb_true_iff in H as [H|H].
    + destruct (startsWith_inv _ _ H) as [r Hr]. now exists "", r.
    + destruct (IH H) as (a & b & ->). now exists (String c a), b.
Qed.

Lemma includes_startsWith (s needle : string) :
  startsWith s needle = true -> includes s needle = true.
Proof. intros H. destruct s; cbn [includes]; now rewrite H. Qed.

Lemma includes_app (a needle b : string) :
  includes (a ++ needle ++ b) needle = true.
Proof.
  induction a as [|c a IH].
  - change ("" ++ needle ++ b)%string with (needle ++ b)%string.
    apply includes_startsWith, startsWith_app.
  - cbn [append includes]. rewrite IH. apply orb_true_r.
Qed.

Lemma string_app_assoc (a b c : string) :
  ((a ++ b) ++ c = a ++ (b ++ c))%string.
Proof. induction a as [|x a IH]; simpl; [reflexivity|now rewrite IH]. Qed.

Lemma split_nonempty (sep : ascii) (s : string) : split sep s <> [].
Proof.
  destruct s as [|a s]; simpl; [discriminate|].
  destruct (Ascii.eqb a sep); [discriminate|].
  destruct (split sep s); discriminate.
Qed.

(** Cutting at a separator cuts the list of components. *)
Lemma split_app_sep (sep : ascii) (x y : string) :
  split sep (x ++ String sep y) = split sep x ++ split sep y.
Proof.
  induction x as [|a x IH]; simpl.
  - now rewrite Ascii.eqb_refl.
  - destruct (Ascii.eqb a sep); [now rewrite IH|].
    rewrite IH. pose proof (split_nonempty sep x) as Hne.
    destruct (split sep x); [contradiction|reflexivity].
Qed.

Lemma endsWith_cons (c : ascii) (s suffix : string) :
  endsWith s suffix = true -> endsWith (String c s) suffix = true.
Proof. intros H. simpl. rewrite H. apply orb_true_r. Qed.

(** A path that ends in [.app] has a component that ends in [.app]. *)
Lemma split_app_suffix_component (a : string) :
  existsb (fun c => endsWith c ".app") (split "/" (a ++ ".app")) = true.
Proof.
  induction a as [|c a IH]; [reflexivity|].
  cbn [append split].
  destruct (Ascii.eqb c "/").
  - cbn [existsb]. rewrite IH. apply orb_true_r.
  - destruct (split "/" (a ++ ".app")) as [|w ws]; [discriminate|].
    cbn [existsb] in *. apply orb_true_iff in IH as [IH|IH].
    + now rewrite (endsWith_cons c _ _ IH).
    + rewrite IH. apply orb_true_r.
Qed.

Lemma existsb_find {A} (f : A -> bool) (l : list A) :
  existsb f l = true -> exists x, find f l = Some x /\ f x = true.
Proof.
  induction l as [|a l IH]; simpl; [discriminate|].
  destruct (f a) eqn:E; [now exists a|]. exact IH.
Qed.


End StringFacts.

(** ** Facts about computations *)

Section TraceFacts.

Lemma emits_ret {A} (P : Event -> Prop) (a : A) : emits P (ret a).
Proof. intros t. exists []. now rewrite app_nil_r. Qed.

Lemma emits_throw {A} (P : Event -> Prop) (e : Error) : emits P (@throw A e).
Proof. intros t. exists []. now rewrite app_nil_r. Qed.

Lemma emits_lift {A} (P : Event -> Prop) (o : Outcome A) : emits P (lift o).
Proof. intros t. exists []. now rewrite app_nil_r. Qed.

Lemma emits_call {A} (P : Event -> Prop) (ev : Event)
      (answer : Trace -> option A) (e : Error) :
  P ev -> emits P (call ev answer e).
Proof.
  intros HP t. exists [ev]. unfold call.
  destruct (answer t); simpl; auto.
Qed.

Lemma emits_bind {A B} (P : Event -> Prop) (m : M A) (k : A -> M B) :
  emits P m -> (forall a, emits P (k a)) -> emits P (bind m k).
Proof.
  intros Hm Hk t. unfold bind.
  destruct (Hm t) as (d & Hd & HP).
  destruct (m t) as [t' [a|e]]; simpl in Hd; subst t'.
  - destruct (Hk a (t ++ d)) as (d' & Hd' & HP').
    exists (d ++ d'). rewrite Hd', app_assoc. split; [reflexivity|].
    apply Forall_app; auto.
  - exists d. auto.
Qed.

Lemma emits_tryFinally {A} (P : Event -> Prop) (m : M A) (c : M unit) :
  emits P m -> emits P c -> emits P (tryFinally m c).
Proof.
  intros Hm Hc t. unfold tryFinally.
  destruct (Hm t) as (d & Hd & HP).
  destruct (m t) as [t' r]; simpl in Hd; subst t'.
  destruct (Hc (t ++ d)) as (d' & Hd' & HP').
  exists (d ++ d'). rewrite app_assoc, <- Hd'.
  split; [|apply Forall_app; auto].
  destruct (c (t ++ d)) as [t'' [u|e]]; reflexivity.
Qed.

Lemma emits_mono {A} (P Q : Event -> Prop) (m : M A) :
  (forall ev, P ev -> Q ev) -> emits P m -> emits Q m.
Proof.
  intros HPQ Hm t. destruct (Hm t) as (d & Hd & HP).
  exists d. split; [exact Hd|]. eapply Forall_impl; eauto.
Qed.

End TraceFacts.

(** ** ArchiveAccessor: reading *)

Section Reading.
Variable W : World.
Variable L : Libs.



Lemma readEntry_run (ipaPath entry : string) (t : Trace) :
  readEntry W ipaPath entry t =
  (t ++ [ExecFile "unzip" ["-p"; "--"; ipaPath; entry] None],
   match execBuffer W t "unzip" ["-p"; "--"; ipaPath; entry] None with
   | Some bytes => Ok bytes
   | None => Throw (ArchiveToolFailure "unzip")
   end).
Proof.
  unfold readEntry, execFileBuffer, call.
  destruct (execBuffer W t _ _ _); reflexivity.
Qed.

Lemma readEntry_emits (ipaPath entry : string) :
  emits readsOnly (readEntry W ipaPath entry).
Proof. apply emits_call. reflexivity. Qed.

Lemma listEntries_emits (ipaPath : string) :
  emits readsOnly (listEntries W L ipaPath).
Proof.
  apply emits_bind; [apply emits_call; reflexivity|].
  intros; apply emits_ret.
Qed.

Lemma readManifestPlist_emits (ipaPath : string) (entries : list string) :
  emits readsOnly (readManifestPlist W L ipaPath entries).
Proof.
  induction entries as [|e entries IH]; simpl; [apply emits_ret|].
  destruct (isManifestPlist e); [|exact IH].
  apply emits_bind; [apply readEntry_emits|]. intros; apply emits_ret.
Qed.

Lemma readInfoPlist_emits (ipaPath : string) (entries : list string) :
  emits readsOnly (readInfoPlist W L ipaPath entries).
Proof.
  induction entries as [|e entries IH]; simpl; [apply emits_ret|].
  destruct (isBundleInfoPlist e); [|exact IH].
  apply emits_bind; [apply readEntry_emits|]. intros; apply emits_ret.
Qed.

Lemma sinfFiles_emits (sinfs : list Sinf) (ipaPath : string)
      (entries : list string) (bundleName : string) :
  emits readsOnly (sinfFiles W L sinfs ipaPath entries bundleName).
Proof.
  apply emits_bind; [apply readManifestPlist_emits|].
  intros [m|]; [apply emits_lift|].
  apply emits_bind; [apply readInfoPlist_emits|].
  intros [i|]; [apply emits_ret|apply emits_throw].
Qed.

Lemma planFiles_emits (sinfs : list Sinf) (ipaPath : string)
      (meta : option string) :
  emits readsOnly (planFiles W L sinfs ipaPath meta).
Proof.
  apply emits_bind; [apply listEntries_emits|]. intros entries.
  apply emits_bind; [apply emits_lift|]. intros bundleName.
  apply emits_bind; [apply sinfFiles_emits|]. intros; apply emits_ret.
Qed.

End Reading.

(** C2 (amended). [readEntry] does not inspect the entry path: for every
    archive path and every entry path, also one with parent-directory
    segments or an absolute one, it starts exactly one [unzip -p -- archive
    entry] process, and resolves with its output or rejects with the tool's
    failure. The only protection is the ["--"] before the two operands. *)
Theorem readEntry_always_extracts (W : World) (ipaPath entry : string)
        (t : Trace) :
  readEntry W ipaPath entry t =
  (t ++ [ExecFile "unzip" ["-p"; "--"; ipaPath; entry] None],
   match execBuffer W t "unzip" ["-p"; "--"; ipaPath; entry] None with
   | Some bytes => Ok bytes
   | None => Throw (ArchiveToolFailure "unzip")
   end).
Proof. apply readEntry_run. Qed.

(** ** PropertyListCodec: format detection *)

(** C3 (amended). When the binary decoder returns at least one object, the
    result is its first object and the XML parser has no say, whatever it
    is; when the binary decoder throws or returns no object -- also on a
    buffer that starts with the magic header -- the result is that of the
    XML attempt, which consults the XML parser only when the text contains
    [<?xml] or [<plist]. *)
Theorem parsePlistBuffer_binary_first (L : Libs) (bytes : Buffer) :
  match bplistParser_parseBuffer L bytes with
  | Some (first :: _) =>
      forall xml, parsePlistBuffer (withPlistParse L xml) bytes = first
  | Some [] | None =>
      parsePlistBuffer L bytes = parsePlistXml L bytes
      /\ let text := Buffer_toString_utf8 L bytes in
         if JsString.includes text "<?xml" || JsString.includes text "<plist"
         then True
         else forall xml, parsePlistBuffer (withPlistParse L xml) bytes = PNull
  end.
Proof.
  assert (Hx : forall xml,
             bplistParser_parseBuffer L bytes = None
             \/ bplistParser_parseBuffer L bytes = Some [] ->
             JsString.includes (Buffer_toString_utf8 L bytes) "<?xml"
             || JsString.includes (Buffer_toString_utf8 L bytes) "<plist"
             = false ->
             parsePlistBuffer (withPlistParse L xml) bytes = PNull).
  { intros xml Hb Ht. unfold parsePlistBuffer, parsePlistXml.
    cbn [withPlistParse bplistParser_parseBuffer Buffer_toString_utf8].
    rewrite Ht. destruct Hb as [-> | ->]; reflexivity. }
  destruct (bplistParser_parseBuffer L bytes) as [[|first others]|] eqn:E.
  - split; [unfold parsePlistBuffer; now rewrite E|].
    cbv zeta.
    destruct (JsString.includes _ "<?xml" || JsString.includes _ "<plist")
      eqn:Ht; [exact I|].
    intros xml. apply Hx; auto.
  - intros xml. unfold parsePlistBuffer.
    cbn [withPlistParse bplistParser_parseBuffer]. now rewrite E.
  - split; [unfold parsePlistBuffer; now rewrite E|].
    cbv zeta.
    destruct (JsString.includes _ "<?xml" || JsString.includes _ "<plist")
      eqn:Ht; [exact I|].
    intros xml. apply Hx; auto.
Qed.

(** ** BundleLocator *)

Section BundleLocator.
Import JsString.

Lemma firstAppComponent_find (components : list string) :
  firstAppComponent components =
  option_map (fun c => replace c ".app" "") (find endsWithApp components).
Proof.
  induction components as [|c cs IH]; [reflexivity|].
  cbn [firstAppComponent find]. unfold endsWithApp at 1.
  destruct (endsWith c ".app"); [reflexivity|exact IH].
Qed.

(** An entry that passes the test of [readBundleName] has a component that
    ends in [.app], so the inner loop returns. *)
Lemma bundle_entry_has_app_component (entry : string) :
  isBundleInfoPlist entry = true ->
  exists c, find endsWithApp (split "/" entry) = Some c
            /\ endsWith c ".app" = true.
Proof.
  unfold isBundleInfoPlist. intros H.
  apply andb_true_iff in H as [H _].
  destruct (includes_inv _ _ H) as (a & b & ->).
  apply existsb_find.
  change (".app/Info.plist" ++ b)%string
    with (".app" ++ String "/" ("Info.plist" ++ b))%string.
  rewrite <- string_app_assoc, split_app_sep, existsb_app.
  unfold endsWithApp.
  now rewrite split_app_suffix_component.
Qed.

(** What [readBundleName] does, in full: the first entry that passes the
    test decides. *)
Lemma readBundleName_find (entries : list string) :
  readBundleName entries =
  match find isBundleInfoPlist entries with
  | None => Throw BundleNotFound
  | Some entry =>
      match find endsWithApp (split "/" entry) with
      | Some c => Ok (replace c ".app" "")
      | None => Throw BundleNotFound
      end
  end.
Proof.
  induction entries as [|e entries IH]; [reflexivity|].
  cbn [readBundleName find].
  destruct (isBundleInfoPlist e) eqn:E; [|exact IH].
  rewrite firstAppComponent_find.
  destruct (bundle_entry_has_app_component e E) as (c & -> & _).
  reflexivity.
Qed.


End BundleLocator.

(** C7 (amended). [readManifestPlist] reads the first entry of the listing,
    in listing order, that ends in [.app/SC_Info/Manifest.plist], whichever
    bundle it lies under (the bundle name found by [readBundleName] plays no
    part), and nothing else; without such an entry it resolves to nothing
    and reads nothing. The decoded tree yields the path sequence when its
    [SinfPaths] field is a sequence and nothing otherwise, which is a
    resolved result, not a failure. *)
Theorem readManifestPlist_first_manifest (W : World) (L : Libs)
        (ipaPath : string) (entries : list string) (t : Trace) :
  match find isManifestPlist entries with
  | None => readManifestPlist W L ipaPath entries t = (t, Ok None)
  | Some entry =>
      JsString.endsWith entry ".app/SC_Info/Manifest.plist" = true
      /\ readManifestPlist W L ipaPath entries t =
         (t ++ [ExecFile "unzip" ["-p"; "--"; ipaPath; entry] None],
          match execBuffer W t "unzip" ["-p"; "--"; ipaPath; entry] None with
          | Some bytes => Ok (manifestOf (parsePlistBuffer L bytes))
          | None => Throw (ArchiveToolFailure "unzip")
          end)
  end
  /\ forall parsed,
      manifestOf parsed =
      match getProp parsed "SinfPaths" with
      | Some (PArray paths) => Some {| sinfPaths := paths |}
      | _ => None
      end.
Proof.
  split.
  - induction entries as [|e entries IH]; [reflexivity|].
    cbn [find readManifestPlist].
    destruct (isManifestPlist e) eqn:E; [|exact IH].
    split; [exact E|].
    unfold bind. rewrite readEntry_run.
    destruct (execBuffer W t _ _ _); reflexivity.
  - intros parsed. unfold manifestOf.
    destruct parsed; cbn [getProp truthy]; try reflexivity;
      match goal with |- (if ?b then _ else _) = _ => destruct b end;
      reflexivity.
Qed.

(** ** InjectionPlanner *)

Section Planner.
Variable W : World.
Variable L : Libs.

Lemma skipn_nth_error_Some {A} (l : list A) (i : nat) (a : A) :
  nth_error l i = Some a -> skipn i l = a :: skipn (S i) l.
Proof.
  revert l; induction i as [|i IH]; intros [|b l] H; try discriminate.
  - now inversion H.
  - cbn [nth_error] in H. change (skipn (S i) (b :: l)) with (skipn i l).
    now rewrite (IH _ H).
Qed.

Lemma skipn_nth_error_None {A} (l : list A) (i : nat) :
  nth_error l i = None -> skipn i l = [].
Proof. intros H. apply skipn_all2. now apply nth_error_None. Qed.

(** The manifest loop pairs path [i] with blob [i] as long as both exist. *)
Lemma combine_nil_r {A B} (l : list A) : combine l (@nil B) = [].
Proof. now destruct l. Qed.

(** The manifest loop pairs element [i] with blob [i] as long as both
    exist, whatever the elements are. *)
Lemma manifestFiles_slots (bundleName : string) (sinfs : list Sinf)
      (i : nat) (paths : list PropertyValue) :
  manifestFiles L bundleName sinfs i paths =
  planSlots L bundleName (combine paths (skipn i sinfs)).
Proof.
  revert i; induction paths as [|p paths IH]; intros i; [reflexivity|].
  cbn [manifestFiles].
  destruct (nth_error sinfs i) as [s|] eqn:E.
  - rewrite (skipn_nth_error_Some _ _ _ E). cbn [combine planSlots].
    rewrite IH. reflexivity.
  - rewrite IH, (skipn_nth_error_None _ _ E).
    assert (Hs : skipn (S i) sinfs = []).
    { apply skipn_all2. apply nth_error_None in E. lia. }
    rewrite Hs. now rewrite !combine_nil_r.
Qed.

(** Paths that are strings are always rendered. *)
Lemma planSlots_strings (bundleName : string) (paths : list string) :
  forall blobs,
    planSlots L bundleName (combine (map PString paths) blobs) =
    Ok (map (manifestItem L bundleName) (combine paths blobs)).
Proof.
  induction paths as [|p paths IH]; intros [|b blobs]; try reflexivity.
  cbn [map combine planSlots template]. now rewrite IH.
Qed.

(** The manifest loop pairs path [i] with blob [i] as long as both exist. *)
Lemma manifestFiles_combine (bundleName : string) (sinfs : list Sinf)
      (i : nat) (paths : list string) :
  manifestFiles L bundleName sinfs i (map PString paths) =
  Ok (map (manifestItem L bundleName) (combine paths (skipn i sinfs))).
Proof. now rewrite manifestFiles_slots, planSlots_strings. Qed.

Lemma manifestFiles_no_blob (bundleName : string) (i : nat)
      (paths : list PropertyValue) :
  manifestFiles L bundleName [] i paths = Ok [].
Proof.
  revert i; induction paths as [|p paths IH]; intros i; [reflexivity|].
  cbn [manifestFiles]. destruct i; cbn [nth_error]; apply IH.
Qed.

Lemma nth_error_map_combine {A B C} (f : A * B -> C) (l : list A)
      (l' : list B) (i : nat) (a : A) (b : B) :
  nth_error l i = Some a -> nth_error l' i = Some b ->
  nth_error (map f (combine l l')) i = Some (f (a, b)).
Proof.
  revert l l'; induction i as [|i IH]; intros [|x l] [|y l'] Ha Hb;
    try discriminate; cbn in *.
  - now inversion Ha; inversion Hb.
  - now apply IH.
Qed.

(** What [sinfFiles] does once the manifest has been read. *)
Lemma sinfFiles_after_manifest (sinfs : list Sinf) (ipaPath : string)
      (entries : list string) (bundleName : string) (t t1 : Trace)
      (manifest : option Manifest) :
  readManifestPlist W L ipaPath entries t = (t1, Ok manifest) ->
  sinfFiles W L sinfs ipaPath entries bundleName t =
  match manifest with
  | Some m => (t1, manifestFiles L bundleName sinfs 0 (sinfPaths m))
  | None =>
      match readInfoPlist W L ipaPath entries t1 with
      | (t2, Ok (Some info)) => (t2, Ok (fallbackFiles L bundleName sinfs info))
      | (t2, Ok None) => (t2, Throw LocatorFailed)
      | (t2, Throw e) => (t2, Throw e)
      end
  end.
Proof.
  intros H. unfold sinfFiles, bind. rewrite H.
  destruct manifest as [m|]; [reflexivity|].
  destruct (readInfoPlist W L ipaPath entries t1) as [t2 [[i|]|e]];
    reflexivity.
Qed.

(** C5. With a manifest whose paths are [paths] (of length m) and blobs
    [sinfs] (of length n), the planner emits exactly [min m n] items: item
    [i] is at [Payload/<bundle>.app/<paths[i]>] and carries the decoded bytes
    of blob [i]; the surplus of either sequence is skipped without error. *)
Theorem manifest_plan_pairs_by_index (sinfs : list Sinf) (ipaPath : string)
        (entries : list string) (bundleName : string) (paths : list string)
        (t t1 : Trace) :
  readManifestPlist W L ipaPath entries t =
    (t1, Ok (Some {| sinfPaths := map PString paths |})) ->
  let items := map (manifestItem L bundleName) (combine paths sinfs) in
  sinfFiles W L sinfs ipaPath entries bundleName t = (t1, Ok items)
  /\ List.length items = Nat.min (List.length paths) (List.length sinfs)
  /\ forall i p s,
      nth_error paths i = Some p -> nth_error sinfs i = Some s ->
      nth_error items i =
      Some {| entryPath := ("Payload/" ++ bundleName ++ ".app/" ++ p)%string;
              data := Buffer_from_base64 L (sinf s) |}.
Proof.
  intros H items. split; [|split].
  - rewrite (sinfFiles_after_manifest _ _ _ _ _ _ _ H).
    cbn [sinfPaths]. now rewrite manifestFiles_combine.
  - unfold items. now rewrite length_map, length_combine.
  - intros i p s Hp Hs. unfold items.
    now rewrite (nth_error_map_combine _ _ _ _ _ _ Hp Hs).
Qed.

(** C6. When [readManifestPlist] yields a manifest, the DRM part of the
    plan comes from the manifest alone and the info plist is not read:
    [sinfFiles] ends at the trace the manifest read ended at, with one item
    per index that has both a manifest path and a blob, at
    [Payload/<bundle>.app/<path>] with that blob's bytes -- for paths that
    are strings always, in general unless a path cannot be rendered, which
    is the [TypeError] of the whole. When it yields none and
    [readInfoPlist] yields an executable name, at least one blob gives
    exactly one item, at
    [Payload/<bundle>.app/SC_Info/<ExecutableName>.sinf], with the first
    blob's bytes, whatever the other blobs are. *)
Theorem manifest_priority_and_fallback (sinfs : list Sinf)
        (ipaPath : string) (entries : list string) (bundleName : string)
        (t t1 t2 : Trace) (m : Manifest) (paths : list string) (info : Info)
        (first : Sinf) (others : list Sinf) :
  (readManifestPlist W L ipaPath entries t = (t1, Ok (Some m)) ->
   sinfFiles W L sinfs ipaPath entries bundleName t =
     (t1, planSlots L bundleName (combine (sinfPaths m) sinfs))
   /\ (sinfPaths m = map PString paths ->
       sinfFiles W L sinfs ipaPath entries bundleName t =
       (t1,
        Ok (map (fun slot =>
                   {| entryPath :=
                        ("Payload/" ++ bundleName ++ ".app/" ++ fst slot)%string;
                      data := Buffer_from_base64 L (sinf (snd slot)) |})
                (combine paths sinfs)))))
  /\ (readManifestPlist W L ipaPath entries t = (t1, Ok None) ->
      readInfoPlist W L ipaPath entries t1 = (t2, Ok (Some info)) ->
      sinfFiles W L (first :: others) ipaPath entries bundleName t =
      (t2, Ok [{| entryPath :=
                    ("Payload/" ++ bundleName ++ ".app/SC_Info/"
                     ++ bundleExecutable info ++ ".sinf")%string;
                  data := Buffer_from_base64 L (sinf first) |}])).
Proof.
  split.
  - intros H. rewrite (sinfFiles_after_manifest _ _ _ _ _ _ _ H).
    rewrite manifestFiles_slots. cbn [skipn]. split; [reflexivity|].
    intros ->. now rewrite planSlots_strings.
  - intros H Hi. rewrite (sinfFiles_after_manifest _ _ _ _ _ _ _ H).
    now rewrite Hi.
Qed.

End Planner.

(** ** The metadata payload *)

Section Metadata.
Variable W : World.
Variable L : Libs.

(** The metadata item is appended to whatever the DRM planning gave, and
    has no part in whether planning succeeds. *)
Lemma planFiles_metadata (sinfs : list Sinf) (ipaPath : string)
      (meta : option string) (t : Trace) :
  planFiles W L sinfs ipaPath meta t =
  (fst (planFiles W L sinfs ipaPath None t),
   mapOutcome (fun drm => drm ++ metadataFiles L meta)
              (snd (planFiles W L sinfs ipaPath None t))).
Proof.
  unfold planFiles, bind, ret.
  destruct (listEntries W L ipaPath t) as [t1 [entries|e]]; [|reflexivity].
  destruct (lift (readBundleName entries) t1) as [t2 [bundleName|e]];
    [|reflexivity].
  destruct (sinfFiles W L sinfs ipaPath entries bundleName t2)
    as [t3 [drm|e]]; [|reflexivity].
  cbn. now rewrite app_nil_r.
Qed.

Lemma manifestFiles_not_metadata (bundleName : string) (sinfs : list Sinf)
      (i : nat) (paths : list PropertyValue) (files : list InjectFile) :
  manifestFiles L bundleName sinfs i paths = Ok files ->
  forallb (fun f => negb (isMetadataPath f)) files = true.
Proof.
  revert i files; induction paths as [|p paths IH]; intros i files.
  - intros H; now inversion H.
  - cbn [manifestFiles]. destruct (nth_error sinfs i); [|apply IH].
    destruct (template L p) as [text|e]; [|discriminate].
    destruct (manifestFiles L bundleName sinfs (S i) paths) as [rest|e] eqn:E;
      [|discriminate].
    intros H; inversion H. cbn [forallb]. now rewrite (IH _ _ E).
Qed.

Lemma fallbackFiles_not_metadata (bundleName : string) (sinfs : list Sinf)
      (info : Info) :
  forallb (fun f => negb (isMetadataPath f))
          (fallbackFiles L bundleName sinfs info) = true.
Proof. destruct sinfs; reflexivity. Qed.

Lemma sinfFiles_not_metadata (sinfs : list Sinf) (ipaPath : string)
      (entries : list string) (bundleName : string) (t t1 : Trace)
      (drm : list InjectFile) :
  sinfFiles W L sinfs ipaPath entries bundleName t = (t1, Ok drm) ->
  forallb (fun f => negb (isMetadataPath f)) drm = true.
Proof.
  unfold sinfFiles, bind, ret, throw.
  destruct (readManifestPlist W L ipaPath entries t) as [t2 [[m|]|e]];
    try discriminate.
  - unfold lift. intros H; inversion H.
    eapply manifestFiles_not_metadata; eauto.
  - destruct (readInfoPlist W L ipaPath entries t2) as [t3 [[i|]|e]];
      try discriminate.
    intros H; inversion H. apply fallbackFiles_not_metadata.
Qed.

(** Every DRM item lies under [Payload/], so none is the metadata file. *)
Lemma planFiles_drm_not_metadata (sinfs : list Sinf) (ipaPath : string)
      (t t1 : Trace) (drm : list InjectFile) :
  planFiles W L sinfs ipaPath None t = (t1, Ok drm) ->
  forallb (fun f => negb (isMetadataPath f)) drm = true.
Proof.
  unfold planFiles, bind, ret.
  destruct (listEntries W L ipaPath t) as [t2 [entries|e]]; [|discriminate].
  destruct (lift (readBundleName entries) t2) as [t3 [bundleName|e]];
    [|discriminate].
  destruct (sinfFiles W L sinfs ipaPath entries bundleName t3)
    as [t4 [files|e]] eqn:E; [|discriminate].
  cbn. rewrite app_nil_r. intros H; inversion H; subst.
  eapply sinfFiles_not_metadata; eauto.
Qed.



End Metadata.

(** ** ArchiveAccessor: writing *)

Section Writing.
Variable W : World.

Lemma call_run {A} (ev : Event) (answer : Trace -> option A) (e : Error)
      (t : Trace) :
  call ev answer e t =
  (t ++ [ev], match answer t with Some a => Ok a | None => Throw e end).
Proof. unfold call. destruct (answer t); reflexivity. Qed.

Lemma stagedFrom_cons (tmpDir : string) (f : InjectFile)
      (files : list InjectFile) (ev : Event) :
  stagedFrom W tmpDir files ev -> stagedFrom W tmpDir (f :: files) ev.
Proof. intros (g & Hin & Hg). exists g. split; [now right|exact Hg]. Qed.

(** The staging loop: what it writes, what it returns, and how it stops at
    the first item the guard refuses. *)
Lemma stageFiles_run (tmpDir : string) (files : list InjectFile) :
  forall (acc : list string) (t : Trace),
  exists d r,
    stageFiles W tmpDir files acc t = (t ++ d, r)
    /\ Forall (stagedFrom W tmpDir files) d
    /\ (forall paths, r = Ok paths -> paths = acc ++ map entryPath files)
    /\ (forall first,
          find (escapesStaging W tmpDir) files = Some first ->
          exists e, r = Throw e
                    /\ (fsNeverFails W -> e = UnsafePath (entryPath first))).
Proof.
  induction files as [|f files IH]; intros acc t.
  - exists [], (Ok acc). cbn. rewrite !app_nil_r.
    repeat split; auto.
    + intros paths H; now inversion H.
    + discriminate.
  - cbn [stageFiles find].
    assert (Hesc : escapesStaging W tmpDir f
                   = negb (insideStaging W tmpDir (entryPath f)))
      by reflexivity.
    rewrite Hesc. clear Hesc.
    destruct (insideStaging W tmpDir (entryPath f)) eqn:Hin; cbn [negb].
    + set (fullPath := Path.resolve (process_cwd W) [tmpDir; entryPath f]).
      assert (Hf : forall ev, stagingEventOf W tmpDir f ev ->
                              stagedFrom W tmpDir (f :: files) ev).
      { intros ev Hev. exists f. repeat split.
        - now left.
        - unfold escapesStaging. now rewrite Hin.
        - exact Hev. }
      unfold bind at 1. unfold mkdirRecursive. rewrite call_run.
      destruct (fs_mkdir W t (Path.dirname fullPath)) eqn:Hmk;
        cbn [unitAnswer].
      * unfold bind at 1. unfold writeFile. rewrite call_run.
        destruct (fs_writeFile W (t ++ [Mkdir (Path.dirname fullPath)])
                               fullPath (data f)) eqn:Hwr;
          cbn [unitAnswer].
        -- destruct (IH (acc ++ [entryPath f])
                        ((t ++ [Mkdir (Path.dirname fullPath)])
                           ++ [WriteFile fullPath (data f)]))
             as (d & r & Hrun & Hd & Hok & Hbad).
           exists (Mkdir (Path.dirname fullPath)
                   :: WriteFile fullPath (data f) :: d), r.
           rewrite Hrun. repeat split.
           ++ now rewrite <- !app_assoc.
           ++ constructor; [apply Hf; now left|].
              constructor; [apply Hf; now right|].
              eapply Forall_impl; [|exact Hd].
              intros ev. apply stagedFrom_cons.
           ++ intros paths Hp. rewrite (Hok _ Hp).
              cbn [map]. now rewrite <- app_assoc.
           ++ exact Hbad.
        -- exists [Mkdir (Path.dirname fullPath); WriteFile fullPath (data f)],
             (Throw (FsFailure "writeFile")).
           repeat split.
           ++ now rewrite <- app_assoc.
           ++ constructor; [apply Hf; now left|].
              constructor; [apply Hf; now right|constructor].
           ++ discriminate.
           ++ intros first _. eexists. split; [reflexivity|].
              intros (_ & Hw & _). now rewrite Hw in Hwr.
      * exists [Mkdir (Path.dirname fullPath)], (Throw (FsFailure "mkdir")).
        repeat split.
        -- constructor; [apply Hf; now left|constructor].
        -- discriminate.
        -- intros first _. eexists. split; [reflexivity|].
           intros (Hm & _). now rewrite Hm in Hmk.
    + exists [], (Throw (UnsafePath (entryPath f))).
      unfold throw. rewrite app_nil_r. repeat split; auto.
      * discriminate.
      * intros first H; inversion H; subst. eexists; split; reflexivity.
Qed.

Lemma find_of_In {A} (f : A -> bool) (l : list A) (a : A) :
  In a l -> f a = true -> exists b, find f l = Some b.
Proof.
  intros Hin Ha. destruct (find f l) as [b|] eqn:E; [now exists b|].
  now rewrite (find_none _ _ E _ Hin) in Ha.
Qed.

(** A staged item was let through by the guard: what is written lies
    strictly below the staging directory. *)
Lemma stagedFrom_write_inside (tmpDir : string) (files : list InjectFile)
      (file : string) (bytes : Buffer) :
  stagedFrom W tmpDir files (WriteFile file bytes) ->
  JsString.startsWith
    file (Path.resolve (process_cwd W) [tmpDir] ++ Path.sep)%string = true.
Proof.
  intros (f & _ & Hesc & [Hev|Hev]); [discriminate|].
  inversion Hev; subst.
  unfold escapesStaging in Hesc. apply negb_false_iff in Hesc.
  exact Hesc.
Qed.

Lemma stagedFrom_not_update (tmpDir : string) (files : list InjectFile)
      (ev : Event) :
  stagedFrom W tmpDir files ev -> isArchiveUpdate ev = false.
Proof. intros (f & _ & _ & [->| ->]); reflexivity. Qed.

Lemma find_split {A} (f : A -> bool) (l : list A) (x : A) :
  find f l = Some x ->
  exists before after,
    l = before ++ x :: after
    /\ forallb (fun a => negb (f a)) before = true
    /\ f x = true.
Proof.
  induction l as [|a l IH]; [discriminate|]. cbn [find].
  destruct (f a) eqn:E.
  - intros H; inversion H; subst. now exists [], l.
  - intros H. destruct (IH H) as (before & after & -> & Hb & Hx).
    exists (a :: before), after. cbn [forallb app]. now rewrite E, Hb.
Qed.

(** Items that pass the guard and whose calls succeed are staged one after
    the other, and the loop goes on with the next item. *)
Lemma stageFiles_through (tmpDir : string)
      (before rest : list InjectFile) :
  forall acc t,
    forallb (fun f => negb (escapesStaging W tmpDir f)) before = true ->
    stagingCallsSucceed W tmpDir before t = true ->
    stageFiles W tmpDir (before ++ rest) acc t =
    stageFiles W tmpDir rest (acc ++ map entryPath before)
               (t ++ stagingEvents W tmpDir before).
Proof.
  induction before as [|f before IH]; intros acc t Hpass Hcalls.
  - cbn. now rewrite !app_nil_r.
  - cbn [forallb] in Hpass. apply andb_true_iff in Hpass as [Hf Hpass].
    unfold escapesStaging in Hf. rewrite negb_involutive in Hf.
    cbn [stagingCallsSucceed] in Hcalls.
    apply andb_true_iff in Hcalls as [Hcalls Hrest].
    apply andb_true_iff in Hcalls as [Hmkdir Hwrite].
    cbn [app stageFiles]. rewrite Hf. cbn [negb].
    unfold bind at 1. unfold mkdirRecursive. rewrite call_run, Hmkdir.
    cbn [unitAnswer].
    unfold bind at 1. unfold writeFile. rewrite call_run, Hwrite.
    cbn [unitAnswer].
    rewrite <- app_assoc. cbn [app].
    rewrite (IH _ _ Hpass Hrest).
    unfold stagingEvents. cbn [flat_map map app].
    now rewrite <- !app_assoc.
Qed.

(** C1 (amended). Once the staging directory exists, a batch containing an
    item whose resolved destination is not strictly below it makes
    [addFilesToZip] fail. The guard comes before the item's [mkdir] and
    [writeFile]: between [mkdtemp] and the final [rm], the trace holds only
    the [mkdir] and [writeFile] of items the guard let through, every write
    lies strictly below the staging directory, and no [zip] process is
    started. When the [mkdir] and [writeFile] of the items before the first
    such item all succeed, exactly these items are staged, and the failure
    is [UnsafePath] for that item if the final [rm] succeeds and the
    failure of the [rm] otherwise. *)
Theorem addFilesToZip_rejects_escaping_item (ipaPath : string)
        (files : list InjectFile) (bad : InjectFile) (tmpDir : string)
        (t : Trace) :
  fs_mkdtemp W t (stagingPrefix W) = Some tmpDir ->
  In bad files ->
  escapesStaging W tmpDir bad = true ->
  exists d e first before after,
    addFilesToZip W ipaPath files t =
      (t ++ [Mkdtemp (stagingPrefix W)] ++ d ++ [Rm tmpDir], Throw e)
    /\ find (escapesStaging W tmpDir) files = Some first
    /\ files = before ++ first :: after
    /\ forallb (fun f => insideStaging W tmpDir (entryPath f)) before = true
    /\ escapesStaging W tmpDir first = true
    /\ (stagingCallsSucceed W tmpDir before
                            (t ++ [Mkdtemp (stagingPrefix W)]) = true ->
        d = stagingEvents W tmpDir before
        /\ e = if fs_rm W (t ++ [Mkdtemp (stagingPrefix W)] ++ d) tmpDir
               then UnsafePath (entryPath first)
               else FsFailure "rm")
    /\ (fsNeverFails W -> e = UnsafePath (entryPath first))
    /\ Forall (stagedFrom W tmpDir files) d
    /\ Forall (fun ev => isArchiveUpdate ev = false) d
    /\ (forall file bytes,
          In (WriteFile file bytes) d ->
          JsString.startsWith
            file (Path.resolve (process_cwd W) [tmpDir] ++ Path.sep)%string
          = true).
Proof.
  intros Hmk Hin Hbad.
  destruct (find_of_In _ _ _ Hin Hbad) as [first Hfirst].
  destruct (find_split _ _ _ Hfirst) as (before & after & Hfiles & Hpass & Hesc).
  destruct (stageFiles_run tmpDir files [] (t ++ [Mkdtemp (stagingPrefix W)]))
    as (d & r & Hrun & Hd & _ & Hstop).
  destruct (Hstop _ Hfirst) as (e & -> & He).
  assert (Hbody :
    addFilesToZip W ipaPath files t =
    ((t ++ [Mkdtemp (stagingPrefix W)] ++ d) ++ [Rm tmpDir],
     Throw (if fs_rm W (t ++ [Mkdtemp (stagingPrefix W)] ++ d) tmpDir
            then e else FsFailure "rm"))).
  { unfold addFilesToZip. unfold bind at 1. unfold mkdtemp.
    rewrite call_run. fold (stagingPrefix W). rewrite Hmk.
    unfold tryFinally. unfold bind at 1. rewrite Hrun.
    unfold rmRecursive. rewrite call_run. rewrite <- app_assoc.
    destruct (fs_rm W _ tmpDir); reflexivity. }
  exists d.
  exists (if fs_rm W (t ++ [Mkdtemp (stagingPrefix W)] ++ d) tmpDir
          then e else FsFailure "rm").
  exists first, before, after.
  split; [|split; [exact Hfirst|split; [exact Hfiles|split; [|split;
    [exact Hesc|split; [|split; [|split; [exact Hd|split]]]]]]]].
  - rewrite Hbody. now rewrite <- !app_assoc.
  - rewrite forallb_forall in Hpass |- *. intros f Hf.
    specialize (Hpass f Hf). unfold escapesStaging in Hpass.
    now rewrite !negb_involutive in Hpass.
  - intros Hcalls.
    assert (Hrun' :
      stageFiles W tmpDir files [] (t ++ [Mkdtemp (stagingPrefix W)]) =
      ((t ++ [Mkdtemp (stagingPrefix W)]) ++ stagingEvents W tmpDir before,
       Throw (UnsafePath (entryPath first)))).
    { rewrite Hfiles, (stageFiles_through tmpDir before (first :: after)
                                          _ _ Hpass Hcalls).
      cbn [stageFiles]. unfold escapesStaging in Hesc. rewrite Hesc.
      reflexivity. }
    rewrite Hrun in Hrun'. inversion Hrun' as [[Hdd Hee]].
    apply app_inv_head in Hdd. subst d. split; reflexivity.
  - intros Hfs. pose proof Hfs as (_ & _ & Hrm). rewrite Hrm. auto.
  - eapply Forall_impl; [|exact Hd]. intros ev.
    apply stagedFrom_not_update.
  - intros file bytes Hw. rewrite Forall_forall in Hd.
    eapply stagedFrom_write_inside. apply Hd. exact Hw.
Qed.

End Writing.

(** ** Orchestrator *)

Section Orchestrator.
Variable W : World.
Variable L : Libs.

Lemma emits_run {A} (P : Event -> Prop) (m : M A) (t t' : Trace)
      (r : Outcome A) :
  emits P m -> m t = (t', r) -> exists d, t' = t ++ d /\ Forall P d.
Proof. intros Hm H. destruct (Hm t) as (d & Hd & HP). rewrite H in Hd. eauto. Qed.

Lemma emits_bind_post {A B} (P : Event -> Prop) (Q : A -> Prop) (m : M A)
      (k : A -> M B) :
  (forall t t' a, m t = (t', Ok a) -> Q a) ->
  emits P m -> (forall a, Q a -> emits P (k a)) -> emits P (bind m k).
Proof.
  intros HQ Hm Hk t. unfold bind.
  destruct (Hm t) as (d & Hd & HP).
  destruct (m t) as [t' [a|e]] eqn:E; simpl in Hd; subst t'.
  - destruct (Hk a (HQ _ _ _ E) (t ++ d)) as (d' & Hd' & HP').
    exists (d ++ d'). rewrite Hd', app_assoc. split; [reflexivity|].
    apply Forall_app; auto.
  - exists d. auto.
Qed.

Lemma stageFiles_emits (tmpDir : string) (files : list InjectFile)
      (acc : list string) :
  emits (stagedFrom W tmpDir files) (stageFiles W tmpDir files acc).
Proof.
  intros t. destruct (stageFiles_run W tmpDir files acc t)
    as (d & r & H & Hd & _).
  exists d. now rewrite H.
Qed.

(** The only process [addFilesToZip] starts is the update of the batch. *)
Lemma addFilesToZip_update (ipaPath : string) (files : list InjectFile) :
  emits (updateOf ipaPath files) (addFilesToZip W ipaPath files).
Proof.
  unfold addFilesToZip.
  apply emits_bind; [apply emits_call; exact I|]. intros tmpDir.
  apply emits_tryFinally; [|apply emits_call; exact I].
  apply emits_bind_post with (Q := fun paths => paths = map entryPath files).
  - intros t t' paths H.
    destruct (stageFiles_run W tmpDir files [] t) as (d & r & Hr & _ & Hok & _).
    rewrite H in Hr. inversion Hr; subst. now apply Hok.
  - eapply emits_mono; [|apply stageFiles_emits].
    intros ev (f & _ & _ & [->| ->]); exact I.
  - intros paths ->.
    apply emits_bind; [apply emits_call; now split|].
    intros; apply emits_ret.
Qed.

Lemma sinfFiles_no_blob (ipaPath : string) (entries : list string)
      (bundleName : string) (t t1 : Trace) (drm : list InjectFile) :
  sinfFiles W L [] ipaPath entries bundleName t = (t1, Ok drm) -> drm = [].
Proof.
  unfold sinfFiles, bind, ret, throw.
  destruct (readManifestPlist W L ipaPath entries t) as [t2 [[m|]|e]];
    try discriminate.
  - unfold lift. rewrite manifestFiles_no_blob. intros H; now inversion H.
  - destruct (readInfoPlist W L ipaPath entries t2) as [t3 [[i|]|e]];
      try discriminate.
    intros H; now inversion H.
Qed.

Lemma planFiles_no_blob (ipaPath : string) (t t1 : Trace)
      (files : list InjectFile) :
  planFiles W L [] ipaPath None t = (t1, Ok files) -> files = [].
Proof.
  unfold planFiles, bind, ret.
  destruct (listEntries W L ipaPath t) as [t2 [entries|e]]; [|discriminate].
  destruct (lift (readBundleName entries) t2) as [t3 [bundleName|e]];
    [|discriminate].
  destruct (sinfFiles W L [] ipaPath entries bundleName t3)
    as [t4 [drm|e]] eqn:E; [|discriminate].
  intros H; inversion H. rewrite (sinfFiles_no_blob _ _ _ _ _ _ E).
  reflexivity.
Qed.

Lemma inject_empty_metadata (sinfs : list Sinf) (ipaPath : string)
      (t : Trace) :
  inject W L sinfs ipaPath (Some "") t = inject W L sinfs ipaPath None t.
Proof. reflexivity. Qed.

(** C9. When the plan is empty, [inject] ends where planning ended, having
    started nothing but [unzip] processes: no staging directory, no file,
    no [zip]. With no blob and no metadata (absent or empty) this is so
    whatever the archive holds, also when locating fails. *)
Theorem empty_plan_skips_write (sinfs : list Sinf) (ipaPath : string)
        (meta : option string) (t t1 : Trace) :
  (planFiles W L sinfs ipaPath meta t = (t1, Ok []) ->
   inject W L sinfs ipaPath meta t = (t1, Ok tt)
   /\ exists d, t1 = t ++ d /\ Forall readsOnly d)
  /\ (meta = None \/ meta = Some "" ->
      exists d r,
        inject W L [] ipaPath meta t = (t ++ d, r) /\ Forall readsOnly d).
Proof.
  split.
  - intros H. split.
    + unfold inject, bind. now rewrite H.
    + eapply emits_run; [apply planFiles_emits|exact H].
  - intros Hm.
    assert (E : inject W L [] ipaPath meta t = inject W L [] ipaPath None t).
    { destruct Hm as [->| ->]; [reflexivity|apply inject_empty_metadata]. }
    rewrite E.
    destruct (planFiles W L [] ipaPath None t) as [t2 r] eqn:Hp.
    destruct (emits_run _ _ _ _ _ (planFiles_emits W L [] ipaPath None) Hp)
      as (d & -> & Hd).
    exists d. unfold inject, bind. rewrite Hp.
    destruct r as [files|e].
    + rewrite (planFiles_no_blob _ _ _ _ Hp).
      exists (Ok tt). now split.
    + exists (Throw e). now split.
Qed.

(** C10. An empty metadata string is the same as no metadata: nothing is
    planned for it and [inject] behaves as without it. Whenever an item at
    [iTunesMetadata.plist] is planned, it is the last of the plan and all
    the items before it are DRM items; the [zip] process, if started, gets
    it as its last operand. *)
Theorem empty_metadata_absent_and_metadata_last (sinfs : list Sinf)
        (ipaPath : string) :
  metadataFiles L (Some "") = []
  /\ (forall t,
        inject W L sinfs ipaPath (Some "") t = inject W L sinfs ipaPath None t)
  /\ (forall meta t t1 files item,
        planFiles W L sinfs ipaPath meta t = (t1, Ok files) ->
        In item files -> isMetadataPath item = true ->
        exists drm,
          files = drm ++ [item]
          /\ planFiles W L sinfs ipaPath None t = (t1, Ok drm)
          /\ forallb (fun f => negb (isMetadataPath f)) drm = true)
  /\ (forall text,
        JsString.isEmpty text = false ->
        emits (metadataLast ipaPath) (inject W L sinfs ipaPath (Some text))).
Proof.
  split; [reflexivity|]. split; [apply inject_empty_metadata|]. split.
  - intros meta t t1 files item Hp Hin Hitem.
    rewrite planFiles_metadata in Hp.
    destruct (planFiles W L sinfs ipaPath None t) as [t2 [drm|e]] eqn:E;
      cbn in Hp; [|discriminate].
    inversion Hp; subst t2 files. clear Hp.
    pose proof (planFiles_drm_not_metadata W L _ _ _ _ _ E) as Hdrm.
    exists drm. split; [|split; [reflexivity|exact Hdrm]].
    apply in_app_or in Hin as [Hin|Hin].
    + rewrite forallb_forall in Hdrm. apply Hdrm in Hin.
      now rewrite Hitem in Hin.
    + destruct meta as [text|]; [|contradiction].
      cbn [metadataFiles] in *.
      destruct (JsString.isEmpty text); [contradiction|].
      destruct Hin as [<-|[]]. reflexivity.
  - intros text Hne. unfold inject.
    apply emits_bind_post
      with (Q := fun files => exists drm, files = drm ++ [metadataItem L text]).
    + intros t t' files Hp. rewrite planFiles_metadata in Hp.
      destruct (planFiles W L sinfs ipaPath None t) as [t2 [drm|e]];
        cbn in Hp; [|discriminate].
      rewrite Hne in Hp. inversion Hp. now exists drm.
    + eapply emits_mono; [|apply planFiles_emits].
      intros [file args cwd| | | |] Hr Hu; try discriminate.
      cbn in Hr, Hu. apply String.eqb_eq in Hr, Hu. congruence.
    + intros files (drm & ->).
      assert (Hz : emits (metadataLast ipaPath)
                         (addFilesToZip W ipaPath (drm ++ [metadataItem L text]))).
      { eapply emits_mono; [|apply addFilesToZip_update].
        intros [file args cwd| | | |] Hup Hu; try discriminate.
        destruct Hup as [-> ->]. exists (map entryPath drm), cwd.
        now rewrite map_app. }
      destruct drm; exact Hz.
Qed.

End Orchestrator.

(** * Further properties of the code *)

(** ** The whole of [addFilesToZip] *)

Section WritingInFull.
Variable W : World.

Lemma filter_all_false {A} (f : A -> bool) (l : list A) :
  Forall (fun a => f a = false) l -> filter f l = [].
Proof.
  induction 1 as [|a l Ha _ IH]; [reflexivity|].
  cbn. now rewrite Ha.
Qed.

(** Every run of [addFilesToZip] that got its staging directory: the
    staging loop, then [zip] if the loop returned, then the [finally]
    block. *)
Lemma addFilesToZip_run (ipaPath : string) (files : list InjectFile)
      (tmpDir : string) (t : Trace) :
  fs_mkdtemp W t (stagingPrefix W) = Some tmpDir ->
  let t0 := t ++ [Mkdtemp (stagingPrefix W)] in
  exists d r,
    stageFiles W tmpDir files [] t0 = (t0 ++ d, r)
    /\ Forall (stagedFrom W tmpDir files) d
    /\ addFilesToZip W ipaPath files t =
       match r with
       | Ok _ =>
           finishStaging
             W tmpDir ((t0 ++ d) ++ [zipCall ipaPath files tmpDir])
             (match execText W (t0 ++ d) "zip"
                             (["-0"; ipaPath; "--"] ++ map entryPath files)
                             (Some tmpDir) with
              | Some _ => Ok tt
              | None => Throw (ArchiveToolFailure "zip")
              end)
       | Throw e => finishStaging W tmpDir (t0 ++ d) (Throw e)
       end.
Proof.
  intros Hmk t0.
  destruct (stageFiles_run W tmpDir files [] t0)
    as (d & r & Hrun & Hd & Hok & _).
  exists d, r. split; [exact Hrun|]. split; [exact Hd|].
  unfold addFilesToZip. unfold bind at 1. unfold mkdtemp.
  rewrite call_run. fold (stagingPrefix W). rewrite Hmk. fold t0.
  unfold tryFinally. unfold bind at 1. rewrite Hrun.
  destruct r as [paths|e].
  - rewrite (Hok paths eq_refl). cbn [app].
    unfold bind, execFileText. rewrite call_run.
    unfold finishStaging, zipCall. cbn [app].
    destruct (execText W (t0 ++ d) _ _ _); unfold ret;
      unfold rmRecursive; rewrite call_run;
      destruct (fs_rm W _ tmpDir); reflexivity.
  - unfold rmRecursive. rewrite call_run. unfold finishStaging.
    destruct (fs_rm W _ tmpDir); reflexivity.
Qed.

Lemma addFilesToZip_no_staging (ipaPath : string) (files : list InjectFile)
      (t : Trace) :
  fs_mkdtemp W t (stagingPrefix W) = None ->
  addFilesToZip W ipaPath files t =
  (t ++ [Mkdtemp (stagingPrefix W)], Throw (FsFailure "mkdtemp")).
Proof.
  intros Hmk. unfold addFilesToZip, bind, mkdtemp. rewrite call_run.
  fold (stagingPrefix W). now rewrite Hmk.
Qed.

Lemma stagedFrom_not_rm (tmpDir : string) (files : list InjectFile)
      (ev : Event) :
  stagedFrom W tmpDir files ev -> isRm ev = false.
Proof. intros (f & _ & _ & [->| ->]); reflexivity. Qed.

Lemma stagedFrom_not_read (tmpDir : string) (files : list InjectFile)
      (ev : Event) :
  stagedFrom W tmpDir files ev -> isArchiveRead ev = false.
Proof. intros (f & _ & _ & [->| ->]); reflexivity. Qed.

(** X1. The staging directory is removed on every exit path: when
    [mkdtemp] fails nothing else happens; when it succeeds, whatever the
    batch and whatever fails afterwards, the run ends with exactly one [rm]
    of that directory, as its last event, and a failing [rm] is what the
    caller sees. *)
Theorem addFilesToZip_always_cleans_up (ipaPath : string)
        (files : list InjectFile) (t : Trace) :
  match fs_mkdtemp W t (stagingPrefix W) with
  | None =>
      addFilesToZip W ipaPath files t =
      (t ++ [Mkdtemp (stagingPrefix W)], Throw (FsFailure "mkdtemp"))
  | Some tmpDir =>
      exists d r,
        addFilesToZip W ipaPath files t =
          (t ++ [Mkdtemp (stagingPrefix W)] ++ d ++ [Rm tmpDir], r)
        /\ Forall (fun ev => isRm ev = false) d
        /\ if fs_rm W (t ++ [Mkdtemp (stagingPrefix W)] ++ d) tmpDir
           then True else r = Throw (FsFailure "rm")
  end.
Proof.
  destruct (fs_mkdtemp W t (stagingPrefix W)) as [tmpDir|] eqn:Hmk;
    [|now apply addFilesToZip_no_staging].
  destruct (addFilesToZip_run ipaPath files tmpDir t Hmk)
    as (d & r & _ & Hd & Hrun).
  assert (Hnr : Forall (fun ev => isRm ev = false) d).
  { eapply Forall_impl; [|exact Hd]. intros ev. apply stagedFrom_not_rm. }
  rewrite Hrun. unfold finishStaging. destruct r as [paths|e].
  - exists (d ++ [zipCall ipaPath files tmpDir]). eexists.
    split; [|split].
    + rewrite <- !app_assoc. reflexivity.
    + apply Forall_app. split; [exact Hnr|]. now constructor.
    + rewrite <- ?app_assoc.
      destruct (fs_rm W _ tmpDir); [exact I|reflexivity].
  - exists d. eexists. split; [|split].
    + rewrite <- !app_assoc. reflexivity.
    + exact Hnr.
    + rewrite <- ?app_assoc.
      destruct (fs_rm W _ tmpDir); [exact I|reflexivity].
Qed.

Lemma stageFiles_all_pass (tmpDir : string) (files : list InjectFile) :
  fsNeverFails W ->
  forallb (fun f => insideStaging W tmpDir (entryPath f)) files = true ->
  forall acc t,
    stageFiles W tmpDir files acc t =
    (t ++ stagingEvents W tmpDir files, Ok (acc ++ map entryPath files)).
Proof.
  intros (Hmkdir & Hwrite & _).
  induction files as [|f files IH]; intros Hall acc t.
  - cbn. now rewrite !app_nil_r.
  - cbn [forallb] in Hall. apply andb_true_iff in Hall as [Hf Hall].
    cbn [stageFiles]. rewrite Hf. cbn [negb].
    unfold bind at 1. unfold mkdirRecursive. rewrite call_run, Hmkdir.
    cbn [unitAnswer].
    unfold bind at 1. unfold writeFile. rewrite call_run, Hwrite.
    cbn [unitAnswer].
    rewrite (IH Hall). cbn [stagingEvents flat_map map].
    now rewrite <- !app_assoc.
Qed.

(** X2. A batch in which every item passes the guard, on a file system
    that does not fail: the staging directory is made, each item gets its
    [mkdir] and its [writeFile] in batch order, one [zip -0 archive --
    paths...] runs in the staging directory with the entry paths in batch
    order, the directory is removed, and the outcome is that of [zip]. *)
Theorem addFilesToZip_stages_then_updates (ipaPath : string)
        (files : list InjectFile) (tmpDir : string) (t : Trace) :
  fs_mkdtemp W t (stagingPrefix W) = Some tmpDir ->
  fsNeverFails W ->
  forallb (fun f => insideStaging W tmpDir (entryPath f)) files = true ->
  let staged :=
    t ++ [Mkdtemp (stagingPrefix W)] ++ stagingEvents W tmpDir files in
  addFilesToZip W ipaPath files t =
  (staged ++ [zipCall ipaPath files tmpDir; Rm tmpDir],
   match execText W staged "zip"
                  (["-0"; ipaPath; "--"] ++ map entryPath files)
                  (Some tmpDir) with
   | Some _ => Ok tt
   | None => Throw (ArchiveToolFailure "zip")
   end).
Proof.
  intros Hmk Hfs Hall staged.
  destruct (addFilesToZip_run ipaPath files tmpDir t Hmk)
    as (d & r & Hstage & _ & Hrun).
  rewrite (stageFiles_all_pass tmpDir files Hfs Hall) in Hstage.
  inversion Hstage as [[Hd Hr]]. apply app_inv_head in Hd. subst d r.
  rewrite Hrun. unfold finishStaging.
  destruct Hfs as (_ & _ & Hrm). rewrite Hrm.
  unfold staged. rewrite <- !app_assoc. reflexivity.
Qed.

(** X3. [addFilesToZip] never writes outside its staging directory: in
    every run, for every batch, each file written is the resolved
    destination of an item of the batch, holds that item's bytes, and lies
    strictly below the directory [mkdtemp] returned. *)
Theorem addFilesToZip_writes_only_inside_staging (ipaPath : string)
        (files : list InjectFile) (t : Trace) :
  exists d r,
    addFilesToZip W ipaPath files t = (t ++ d, r)
    /\ Forall (writesInsideStaging W t files) d.
Proof.
  destruct (fs_mkdtemp W t (stagingPrefix W)) as [tmpDir|] eqn:Hmk.
  - destruct (addFilesToZip_run ipaPath files tmpDir t Hmk)
      as (d & r & _ & Hd & Hrun).
    assert (Hw : Forall (writesInsideStaging W t files) d).
    { eapply Forall_impl; [|exact Hd].
      intros ev (f & Hin & Hesc & [->| ->]); [exact I|].
      cbn. exists tmpDir, f. repeat split; auto.
      unfold escapesStaging in Hesc. now apply negb_false_iff in Hesc. }
    rewrite Hrun. unfold finishStaging. destruct r as [paths|e].
    + exists ([Mkdtemp (stagingPrefix W)] ++ d
              ++ [zipCall ipaPath files tmpDir] ++ [Rm tmpDir]).
      eexists. split; [rewrite <- !app_assoc; reflexivity|].
      apply Forall_app. split; [now constructor|].
      apply Forall_app. split; [exact Hw|].
      constructor; [exact I|]. now constructor.
    + exists ([Mkdtemp (stagingPrefix W)] ++ d ++ [Rm tmpDir]).
      eexists. split; [rewrite <- !app_assoc; reflexivity|].
      apply Forall_app. split; [now constructor|].
      apply Forall_app. split; [exact Hw|]. now constructor.
  - rewrite (addFilesToZip_no_staging _ _ _ Hmk).
    exists [Mkdtemp (stagingPrefix W)]. eexists.
    split; [reflexivity|]. now constructor.
Qed.

(** The processes [addFilesToZip] starts: never [unzip], [zip] at most
    once. *)
Lemma addFilesToZip_processes (ipaPath : string) (files : list InjectFile)
      (t : Trace) :
  exists d r,
    addFilesToZip W ipaPath files t = (t ++ d, r)
    /\ Forall (fun ev => isArchiveRead ev = false) d
    /\ List.length (filter isArchiveUpdate d) <= 1.
Proof.
  destruct (fs_mkdtemp W t (stagingPrefix W)) as [tmpDir|] eqn:Hmk.
  - destruct (addFilesToZip_run ipaPath files tmpDir t Hmk)
      as (d & r & _ & Hd & Hrun).
    assert (Hr : Forall (fun ev => isArchiveRead ev = false) d).
    { eapply Forall_impl; [|exact Hd]. intros ev. apply stagedFrom_not_read. }
    assert (Hu : filter isArchiveUpdate d = []).
    { apply filter_all_false. eapply Forall_impl; [|exact Hd].
      intros ev. apply stagedFrom_not_update. }
    rewrite Hrun. unfold finishStaging. destruct r as [paths|e].
    + exists ([Mkdtemp (stagingPrefix W)] ++ d
              ++ [zipCall ipaPath files tmpDir] ++ [Rm tmpDir]).
      eexists. split; [rewrite <- !app_assoc; reflexivity|]. split.
      * apply Forall_app. split; [now constructor|].
        apply Forall_app. split; [exact Hr|].
        constructor; [reflexivity|]. now constructor.
      * cbn [app filter isArchiveUpdate]. rewrite filter_app, Hu.
        cbn. lia.
    + exists ([Mkdtemp (stagingPrefix W)] ++ d ++ [Rm tmpDir]).
      eexists. split; [rewrite <- !app_assoc; reflexivity|]. split.
      * apply Forall_app. split; [now constructor|].
        apply Forall_app. split; [exact Hr|]. now constructor.
      * cbn [app filter isArchiveUpdate]. rewrite filter_app, Hu.
        cbn. lia.
  - rewrite (addFilesToZip_no_staging _ _ _ Hmk).
    exists [Mkdtemp (stagingPrefix W)]. eexists.
    split; [reflexivity|]. split; [now constructor|]. cbn. lia.
Qed.

End WritingInFull.

(** ** The locator and the orchestrator *)

Section LocatingInFull.
Import JsString.
Variable W : World.
Variable L : Libs.

(** Which entry [readInfoPlist] reads, and what it makes of it. *)
Lemma readInfoPlist_run (ipaPath : string) (entries : list string)
      (t : Trace) :
  match find isBundleInfoPlist entries with
  | None => readInfoPlist W L ipaPath entries t = (t, Ok None)
  | Some entry =>
      readInfoPlist W L ipaPath entries t =
      (t ++ [ExecFile "unzip" ["-p"; "--"; ipaPath; entry] None],
       match execBuffer W t "unzip" ["-p"; "--"; ipaPath; entry] None with
       | Some bytes => Ok (infoOf (parsePlistBuffer L bytes))
       | None => Throw (ArchiveToolFailure "unzip")
       end)
  end.
Proof.
  induction entries as [|e entries IH]; [reflexivity|].
  cbn [find readInfoPlist].
  destruct (isBundleInfoPlist e) eqn:E; [|exact IH].
  unfold bind. rewrite readEntry_run.
  destruct (execBuffer W t _ _ _); reflexivity.
Qed.

(** X4. [readInfoPlist] reads the first entry of the listing, in listing
    order, that contains [.app/Info.plist] and no [/Watch/], and no other
    entry; without such an entry it resolves to nothing and reads nothing.
    A failing extraction is a failure; a decoded tree yields the executable
    name when its [CFBundleExecutable] field is a string, and nothing
    otherwise. *)
Theorem readInfoPlist_first_info (ipaPath : string) (entries : list string)
        (t : Trace) :
  match find isBundleInfoPlist entries with
  | None => readInfoPlist W L ipaPath entries t = (t, Ok None)
  | Some entry =>
      readInfoPlist W L ipaPath entries t =
      (t ++ [ExecFile "unzip" ["-p"; "--"; ipaPath; entry] None],
       match execBuffer W t "unzip" ["-p"; "--"; ipaPath; entry] None with
       | Some bytes => Ok (infoOf (parsePlistBuffer L bytes))
       | None => Throw (ArchiveToolFailure "unzip")
       end)
  end
  /\ forall parsed,
      infoOf parsed =
      match getProp parsed "CFBundleExecutable" with
      | Some (PString executable) =>
          Some {| bundleExecutable := executable |}
      | _ => None
      end.
Proof.
  split.
  - apply readInfoPlist_run.
  - intros parsed. unfold infoOf.
    destruct parsed; cbn [getProp truthy]; try reflexivity;
      match goal with |- (if ?b then _ else _) = _ => destruct b end;
      reflexivity.
Qed.

Lemma readInfoPlist_trace (ipaPath : string) (entries : list string)
      (t : Trace) :
  fst (readInfoPlist W L ipaPath entries t) =
  match find isBundleInfoPlist entries with
  | None => t
  | Some entry => t ++ [ExecFile "unzip" ["-p"; "--"; ipaPath; entry] None]
  end.
Proof.
  induction entries as [|e entries IH]; [reflexivity|].
  cbn [find readInfoPlist].
  destruct (isBundleInfoPlist e) eqn:E; [|exact IH].
  unfold bind. rewrite readEntry_run.
  destruct (execBuffer W t _ _ _); reflexivity.
Qed.

(** X5. The bundle name and the executable name come from the same entry:
    when [readBundleName] returns a name, it is taken from the first
    [.app] component of the very entry [readInfoPlist] extracts, and
    [readInfoPlist] extracts exactly that entry; when [readBundleName]
    fails, [readInfoPlist] reads nothing and resolves to nothing. *)
Theorem bundle_name_and_info_from_same_entry (ipaPath : string)
        (entries : list string) (t : Trace) :
  match readBundleName entries with
  | Ok name =>
      exists entry component,
        find isBundleInfoPlist entries = Some entry
        /\ find endsWithApp (split "/" entry) = Some component
        /\ name = replace component ".app" ""
        /\ fst (readInfoPlist W L ipaPath entries t) =
           t ++ [ExecFile "unzip" ["-p"; "--"; ipaPath; entry] None]
  | Throw _ => readInfoPlist W L ipaPath entries t = (t, Ok None)
  end.
Proof.
  rewrite readBundleName_find.
  destruct (find isBundleInfoPlist entries) as [entry|] eqn:Hf.
  - destruct (bundle_entry_has_app_component entry) as (c & Hc & _).
    { now apply find_some in Hf. }
    rewrite Hc. exists entry, c. repeat split; auto.
    now rewrite readInfoPlist_trace, Hf.
  - pose proof (readInfoPlist_run ipaPath entries t) as H.
    now rewrite Hf in H.
Qed.

(** X6. When the bundle is found but neither the manifest nor the info
    plist gives usable data, [inject] fails with [LocatorFailed] whatever
    the blobs and the metadata are, and has started nothing but [unzip]
    processes: the metadata is not written on its own. *)
Theorem inject_locator_failed (sinfs : list Sinf) (ipaPath : string)
        (meta : option string) (entries : list string) (name : string)
        (t t1 t2 t3 : Trace) :
  listEntries W L ipaPath t = (t1, Ok entries) ->
  readBundleName entries = Ok name ->
  readManifestPlist W L ipaPath entries t1 = (t2, Ok None) ->
  readInfoPlist W L ipaPath entries t2 = (t3, Ok None) ->
  inject W L sinfs ipaPath meta t = (t3, Throw LocatorFailed)
  /\ exists d, t3 = t ++ d /\ Forall readsOnly d.
Proof.
  intros Hl Hb Hm Hi.
  assert (Hrun : inject W L sinfs ipaPath meta t = (t3, Throw LocatorFailed)).
  { unfold inject, planFiles, bind at 1 2. rewrite Hl.
    unfold lift, bind at 1. rewrite Hb.
    unfold bind at 1. unfold sinfFiles, bind at 1. rewrite Hm.
    unfold bind. rewrite Hi. reflexivity. }
  split; [exact Hrun|].
  destruct (emits_run _ _ _ _ _ (listEntries_emits W L ipaPath) Hl)
    as (d1 & -> & H1).
  destruct (emits_run _ _ _ _ _
              (readManifestPlist_emits W L ipaPath entries) Hm)
    as (d2 & -> & H2).
  destruct (emits_run _ _ _ _ _
              (readInfoPlist_emits W L ipaPath entries) Hi)
    as (d3 & -> & H3).
  exists (d1 ++ d2 ++ d3). rewrite <- !app_assoc.
  split; [reflexivity|]. repeat (apply Forall_app; split); auto.
Qed.

(** X7. [inject] fails before it reads any entry when the listing cannot be
    had or names no bundle: a failing [unzip -l] is the failure of
    [inject]; a listing without an entry containing [.app/Info.plist]
    outside [/Watch/] gives [BundleNotFound]. In both cases the one
    [unzip -l] is all that ran. *)
Theorem inject_fails_before_reading (sinfs : list Sinf) (ipaPath : string)
        (meta : option string) (t : Trace) :
  match execText W t "unzip" ["-l"; "--"; ipaPath] None with
  | None =>
      inject W L sinfs ipaPath meta t =
      (t ++ [ExecFile "unzip" ["-l"; "--"; ipaPath] None],
       Throw (ArchiveToolFailure "unzip"))
  | Some stdout =>
      match find isBundleInfoPlist
                 (entriesOfLines L (split newline stdout)) with
      | None =>
          inject W L sinfs ipaPath meta t =
          (t ++ [ExecFile "unzip" ["-l"; "--"; ipaPath] None],
           Throw BundleNotFound)
      | Some _ => True
      end
  end.
Proof.
  unfold inject, planFiles, listEntries, bind, execFileText.
  rewrite call_run.
  destruct (execText W t "unzip" _ None) as [stdout|]; [|reflexivity].
  destruct (find isBundleInfoPlist _) eqn:Hf; [exact I|].
  unfold ret, lift.
  rewrite readBundleName_find, Hf. reflexivity.
Qed.

Lemma read_is_not_update (ev : Event) :
  isArchiveRead ev = true -> isArchiveUpdate ev = false.
Proof.
  destruct ev as [file args cwd| | | |]; try reflexivity. cbn.
  intros H. apply String.eqb_eq in H. now subst file.
Qed.

(** X8. Every run of [inject] is a reading phase followed by a writing
    phase: first only [unzip] processes, then no [unzip] process at all;
    and [zip] is started at most once in the whole run. *)
Theorem inject_reads_then_writes (sinfs : list Sinf) (ipaPath : string)
        (meta : option string) (t : Trace) :
  exists reads writes r,
    inject W L sinfs ipaPath meta t = (t ++ reads ++ writes, r)
    /\ Forall readsOnly reads
    /\ Forall (fun ev => isArchiveRead ev = false) writes
    /\ List.length (filter isArchiveUpdate (reads ++ writes)) <= 1.
Proof.
  destruct (planFiles W L sinfs ipaPath meta t) as [t1 r1] eqn:Hp.
  destruct (emits_run _ _ _ _ _ (planFiles_emits W L sinfs ipaPath meta) Hp)
    as (reads & -> & Hreads).
  assert (Hu : filter isArchiveUpdate reads = []).
  { apply filter_all_false. eapply Forall_impl; [|exact Hreads].
    intros ev. apply read_is_not_update. }
  unfold inject, bind. rewrite Hp.
  destruct r1 as [[|f files]|e].
  - exists reads, [], (Ok tt). rewrite !app_nil_r.
    repeat split; auto. rewrite Hu. cbn. lia.
  - destruct (addFilesToZip_processes W ipaPath (f :: files) (t ++ reads))
      as (writes & r & Hrun & Hw & Hz).
    exists reads, writes, r. rewrite Hrun, <- app_assoc.
    repeat split; auto. now rewrite filter_app, Hu.
  - exists reads, [], (Throw e). rewrite !app_nil_r.
    repeat split; auto. rewrite Hu. cbn. lia.
Qed.

(** *** What the planner's paths look like *)

Lemma lacksChar_app (c : ascii) (a b : string) :
  lacksChar c (a ++ b) = lacksChar c a && lacksChar c b.
Proof.
  induction a as [|x a IH]; [reflexivity|].
  cbn [append lacksChar]. now rewrite IH, andb_assoc.
Qed.

Lemma lacksChar_drop (c : ascii) (n : nat) (s : string) :
  lacksChar c s = true -> lacksChar c (drop n s) = true.
Proof.
  revert s; induction n as [|n IH]; intros [|a s] H; auto.
  cbn [lacksChar] in H. apply andb_true_iff in H as [_ H].
  cbn [drop]. now apply IH.
Qed.

Lemma lacksChar_replace (c : ascii) (s pattern replacement : string) :
  lacksChar c s = true -> lacksChar c replacement = true ->
  lacksChar c (replace s pattern replacement) = true.
Proof.
  intros Hs Hr. induction s as [|a s IH].
  - cbn [replace]. destruct (startsWith "" pattern); [|reflexivity].
    rewrite lacksChar_app, Hr. now rewrite lacksChar_drop.
  - cbn [replace]. destruct (startsWith (String a s) pattern).
    + rewrite lacksChar_app, Hr. now rewrite lacksChar_drop.
    + cbn [lacksChar] in *. apply andb_true_iff in Hs as [Ha Hs].
      now rewrite Ha, IH.
Qed.

(** No component of a split path holds the separator. *)
Lemma split_lacks_sep (sep : ascii) (s : string) :
  Forall (fun w => lacksChar sep w = true) (split sep s).
Proof.
  induction s as [|a s IH]; [now repeat constructor|].
  cbn [split]. destruct (Ascii.eqb a sep) eqn:E.
  - now constructor.
  - destruct (split sep s) as [|w ws].
    + constructor; [|constructor]. cbn [lacksChar]. now rewrite E.
    + inversion IH; subst. constructor; [|assumption].
      cbn [lacksChar]. now rewrite E.
Qed.

(** X9. A bundle name [readBundleName] returns never holds a [/]: it is
    one path component, so [Payload/<name>.app/] names a directory directly
    under [Payload]. *)
Theorem readBundleName_is_one_component (entries : list string)
        (name : string) :
  readBundleName entries = Ok name -> lacksChar "/" name = true.
Proof.
  rewrite readBundleName_find.
  destruct (find isBundleInfoPlist entries) as [entry|]; [|discriminate].
  destruct (find endsWithApp (split "/" entry)) as [c|] eqn:Hc;
    [|discriminate].
  intros H; inversion H; subst name.
  apply lacksChar_replace; [|reflexivity].
  apply find_some in Hc as [Hin _].
  pose proof (split_lacks_sep "/" entry) as Hall.
  rewrite Forall_forall in Hall. now apply Hall.
Qed.

Lemma startsWith_app_assoc3 (a b c d : string) :
  startsWith (a ++ b ++ c ++ d) (a ++ b ++ c) = true.
Proof.
  replace (a ++ b ++ c ++ d)%string with ((a ++ b ++ c) ++ d)%string.
  - apply startsWith_app.
  - now rewrite !string_app_assoc.
Qed.

(** X10. Every DRM item the planner produces, from the manifest or from
    the fallback, has a destination that starts with
    [Payload/<bundle>.app/]. *)
Theorem sinf_items_lie_under_bundle (sinfs : list Sinf) (ipaPath : string)
        (entries : list string) (bundleName : string) (t t1 : Trace)
        (drm : list InjectFile) :
  sinfFiles W L sinfs ipaPath entries bundleName t = (t1, Ok drm) ->
  Forall (fun f =>
            startsWith (entryPath f)
                       ("Payload/" ++ bundleName ++ ".app/")%string = true)
         drm.
Proof.
  assert (Hm : forall paths i files,
             manifestFiles L bundleName sinfs i paths = Ok files ->
             Forall (fun f =>
                       startsWith (entryPath f)
                                  ("Payload/" ++ bundleName ++ ".app/")%string
                       = true)
                    files).
  { induction paths as [|p paths IH]; intros i files.
    - intros H; inversion H. constructor.
    - cbn [manifestFiles]. destruct (nth_error sinfs i); [|apply IH].
      destruct (template L p) as [text|e]; [|discriminate].
      destruct (manifestFiles L bundleName sinfs (S i) paths) as [rest|e]
        eqn:E; [|discriminate].
      intros H; inversion H.
      constructor; [|eapply IH; eauto].
      exact (startsWith_app_assoc3 "Payload/" bundleName ".app/" text). }
  unfold sinfFiles, bind, ret, throw, lift.
  destruct (readManifestPlist W L ipaPath entries t) as [t2 [[m|]|e]];
    try discriminate.
  - intros H; inversion H. eapply Hm; eauto.
  - destruct (readInfoPlist W L ipaPath entries t2) as [t3 [[i|]|e]];
      try discriminate.
    intros H; inversion H. unfold fallbackFiles.
    destruct sinfs as [|s0 rest]; constructor; [|constructor].
    cbn [entryPath].
    change ("Payload/" ++ bundleName ++ ".app/SC_Info/"
            ++ bundleExecutable i ++ ".sinf")%string
      with ("Payload/" ++ bundleName
            ++ (".app/" ++ ("SC_Info/" ++ bundleExecutable i ++ ".sinf")))%string.
    apply startsWith_app_assoc3.
Qed.

End LocatingInFull.

(** ** The line pattern of [listEntries] *)

Section LinePatternFacts.
Import JsString LinePattern.

Lemma string_app_nil_r (s : string) : (s ++ "")%string = s.
Proof. induction s as [|a s IH]; cbn; [reflexivity|now rewrite IH]. Qed.

Lemma string_app_snoc (taken : string) (a : ascii) (run : string) :
  ((taken ++ String a "") ++ run)%string = (taken ++ String a run)%string.
Proof. now rewrite string_app_assoc. Qed.

Lemma string_length_app (a b : string) :
  String.length (a ++ b) = String.length a + String.length b.
Proof. induction a as [|x a IH]; cbn; [reflexivity|now rewrite IH]. Qed.

Lemma all_app (c : ascii -> bool) (a b : string) :
  all c (a ++ b) = all c a && all c b.
Proof.
  unfold all. induction a as [|x a IH]; [reflexivity|].
  cbn [append list_ascii_of_string forallb]. now rewrite IH, andb_assoc.
Qed.

(** What a successful repetition consumed. *)
Lemma greedy_sound (tm : Term) (k : string -> option (list string)) :
  forall s count taken groups,
    match hi tm with None => True | Some n => count <= n end ->
    greedy tm k count taken s = Some groups ->
    exists run rest groups',
      s = (run ++ rest)%string
      /\ all (cls tm) run = true
      /\ lo tm <= count + String.length run
      /\ match hi tm with
         | None => True
         | Some n => count + String.length run <= n
         end
      /\ k rest = Some groups'
      /\ groups = if captured tm then (taken ++ run)%string :: groups'
                  else groups'.
Proof.
  assert (Hstop : forall s count taken groups,
             match hi tm with None => True | Some n => count <= n end ->
             (if Nat.leb (lo tm) count then record tm taken (k s) else None)
             = Some groups ->
             exists run rest groups',
               s = (run ++ rest)%string
               /\ all (cls tm) run = true
               /\ lo tm <= count + String.length run
               /\ match hi tm with
                  | None => True
                  | Some n => count + String.length run <= n
                  end
               /\ k rest = Some groups'
               /\ groups = if captured tm then (taken ++ run)%string :: groups'
                           else groups').
  { intros s count taken groups Hhi H.
    destruct (Nat.leb (lo tm) count) eqn:Hlo; [|discriminate].
    apply Nat.leb_le in Hlo. unfold record in H.
    destruct (k s) as [groups'|] eqn:Hk; [|discriminate].
    inversion H; subst groups. exists "", s, groups'.
    cbn [append String.length]. rewrite string_app_nil_r, Nat.add_0_r.
    repeat split; auto. }
  induction s as [|a s IH]; intros count taken groups Hhi H.
  - apply Hstop; assumption.
  - cbn [greedy] in H.
    destruct (cls tm a && mayTakeMore tm count) eqn:Hc;
      [|apply Hstop; assumption].
    destruct (greedy tm k (S count) (taken ++ String a "") s)
      as [g|] eqn:Hg; [|apply Hstop; assumption].
    inversion H; subst g. clear H.
    apply andb_true_iff in Hc as [Ha Hmore].
    apply IH in Hg.
    + destruct Hg as (run & rest & groups' & -> & Hall & Hlo & Hhi' & Hk & Hg).
      exists (String a run), rest, groups'.
      cbn [append String.length]. rewrite Nat.add_succ_r.
      repeat split; auto.
      * unfold all in *. cbn [list_ascii_of_string forallb].
        now rewrite Ha, Hall.
      * now rewrite <- string_app_snoc.
    + unfold mayTakeMore in Hmore. destruct (hi tm); [|exact I].
      apply Nat.ltb_lt in Hmore. lia.
Qed.

(** Soundness of the matcher: a matched string is the concatenation of one
    run per term, each run fitting its term. *)
Lemma matchTerms_sound (terms : list Term) :
  forall s groups,
    matchTerms terms s = Some groups ->
    exists runs,
      s = concat runs
      /\ Forall2 fits terms runs
      /\ groups = capturedRuns terms runs.
Proof.
  induction terms as [|tm terms IH]; intros s groups H.
  - cbn in H. destruct s; [|discriminate]. inversion H.
    exists []. repeat split. constructor.
  - cbn [matchTerms] in H. apply greedy_sound in H.
    + destruct H as (run & rest & groups' & -> & Hall & Hlo & Hhi & Hk & ->).
      destruct (IH _ _ Hk) as (runs & -> & Hfits & ->).
      exists (run :: runs). cbn [concat capturedRuns]. repeat split.
      constructor; [|exact Hfits].
      repeat split; auto.
    + destruct (hi tm); [lia|exact I].
Qed.

(** A repetition followed by something it cannot take, and that matches,
    takes the whole run. *)
Lemma greedy_takes_run (tm : Term) (k : string -> option (list string))
      (rest : string) (groups : list string) :
  headFails (cls tm) rest = true ->
  k rest = Some groups ->
  forall run count taken,
    all (cls tm) run = true ->
    lo tm <= count + String.length run ->
    match hi tm with
    | None => True
    | Some n => count + String.length run <= n
    end ->
    greedy tm k count taken (run ++ rest) =
    Some (if captured tm then (taken ++ run)%string :: groups else groups).
Proof.
  intros Hhead Hk. induction run as [|a run IH]; intros count taken Hall Hlo Hhi.
  - cbn [append String.length] in *. rewrite Nat.add_0_r in Hlo.
    rewrite string_app_nil_r.
    assert (Hstop : (if Nat.leb (lo tm) count
                     then record tm taken (k rest) else None)
                    = Some (if captured tm then taken :: groups else groups)).
    { apply Nat.leb_le in Hlo. now rewrite Hlo, Hk. }
    destruct rest as [|b rest]; [exact Hstop|].
    cbn [greedy]. cbn [headFails] in Hhead.
    apply negb_true_iff in Hhead. rewrite Hhead. exact Hstop.
  - cbn [append greedy]. unfold all in Hall.
    cbn [list_ascii_of_string forallb] in Hall.
    apply andb_true_iff in Hall as [Ha Hall].
    cbn [String.length] in Hlo, Hhi. rewrite Nat.add_succ_r in Hlo, Hhi.
    assert (Hmore : mayTakeMore tm count = true).
    { unfold mayTakeMore. destruct (hi tm); [|reflexivity].
      apply Nat.ltb_lt. lia. }
    rewrite Ha, Hmore. cbn [andb].
    rewrite (IH (S count) (taken ++ String a "")%string Hall Hlo Hhi).
    now rewrite string_app_snoc.
Qed.

Lemma fits_star (c : ascii -> bool) (s : string) :
  fits (star c) s <-> all c s = true.
Proof.
  unfold fits, all, star. cbn [cls lo hi]. split; [now intros (H & _)|].
  intros H. repeat split; auto. lia.
Qed.

Lemma fits_plus (c : ascii -> bool) (s : string) :
  fits (plus c) s <-> span1 c s = true.
Proof.
  unfold fits, span1, all, plus. cbn [cls lo hi].
  rewrite andb_true_iff, Nat.leb_le.
  split; [now intros (H & H' & _)|]. intros (H & H'). repeat split; auto.
Qed.

Lemma fits_between (m n : nat) (c : ascii -> bool) (s : string) :
  fits (between m n c) s <-> span c m n s = true.
Proof.
  unfold fits, span, all, between. cbn [cls lo hi].
  rewrite !andb_true_iff, !Nat.leb_le.
  split; [now intros (H & H' & H'')|]. intros ((H & H') & H'').
  repeat split; auto.
Qed.

Lemma fits_group (tm : Term) (s : string) : fits (group tm) s <-> fits tm s.
Proof. reflexivity. Qed.

Lemma fits_only (c : ascii) (s : string) :
  fits (times 1 (only c)) s <-> s = String c "".
Proof.
  unfold times. rewrite fits_between. unfold span, all, only.
  rewrite !andb_true_iff, !Nat.leb_le. split.
  - intros ((H & Hlo) & Hhi).
    destruct s as [|a [|b s]]; cbn in *; try lia.
    rewrite andb_true_r in H. apply Ascii.eqb_eq in H. now subst.
  - intros ->. cbn. rewrite Ascii.eqb_refl. repeat split; auto.
Qed.

Lemma Forall2_cons_inv {A B} (R : A -> B -> Prop) (a : A) (l : list A)
      (l' : list B) :
  Forall2 R (a :: l) l' ->
  exists b l'', l' = b :: l'' /\ R a b /\ Forall2 R l l''.
Proof. intros H; inversion H; subst; eauto. Qed.

Lemma Forall2_nil_inv {A B} (R : A -> B -> Prop) (l' : list B) :
  Forall2 R [] l' -> l' = [].
Proof. intros H; now inversion H. Qed.

(** The runs behind a recognised line, named. *)
Lemma matchEntryLine_fields (line name : string) :
  matchEntryLine line = Some name ->
  exists f, wellFormed f = true /\ line = render f /\ name = trim (raw f).
Proof.
  unfold matchEntryLine.
  destruct (matchTerms entryLine line) as [[|g gs]|] eqn:H; try discriminate.
  intros E; inversion E; subst name; clear E.
  apply matchTerms_sound in H as (runs & -> & Hfits & Hg).
  unfold entryLine in Hfits, Hg.
  apply Forall2_cons_inv in Hfits as (r1 & l1 & -> & H1 & Hfits).
  apply Forall2_cons_inv in Hfits as (r2 & l2 & -> & H2 & Hfits).
  apply Forall2_cons_inv in Hfits as (r3 & l3 & -> & H3 & Hfits).
  apply Forall2_cons_inv in Hfits as (r4 & l4 & -> & H4 & Hfits).
  apply Forall2_cons_inv in Hfits as (r5 & l5 & -> & H5 & Hfits).
  apply Forall2_cons_inv in Hfits as (r6 & l6 & -> & H6 & Hfits).
  apply Forall2_cons_inv in Hfits as (r7 & l7 & -> & H7 & Hfits).
  apply Forall2_cons_inv in Hfits as (r8 & l8 & -> & H8 & Hfits).
  apply Forall2_cons_inv in Hfits as (r9 & l9 & -> & H9 & Hfits).
  apply Forall2_cons_inv in Hfits as (r10 & l10 & -> & H10 & Hfits).
  apply Forall2_cons_inv in Hfits as (r11 & l11 & -> & H11 & Hfits).
  apply Forall2_cons_inv in Hfits as (r12 & l12 & -> & H12 & Hfits).
  apply Forall2_cons_inv in Hfits as (r13 & l13 & -> & H13 & Hfits).
  apply Forall2_cons_inv in Hfits as (r14 & l14 & -> & H14 & Hfits).
  apply Forall2_nil_inv in Hfits. subst l14.
  cbn in Hg. inversion Hg; subst g gs; clear Hg.
  apply fits_star in H1. apply fits_plus in H2, H3, H9, H13.
  unfold times in H4, H6, H10, H12.
  apply fits_between in H4, H6, H8, H10, H12.
  apply fits_only in H5, H7, H11. subst r5 r7 r11.
  change (fits (plus isDot) r14) in H14. apply fits_plus in H14.
  exists {| pad := r1; size := r2; gap1 := r3; month := r4; day := r6;
            year := r8; gap2 := r9; hour := r10; minute := r12;
            gap3 := r13; raw := r14 |}.
  split; [|split].
  - unfold wellFormed. cbn [pad size gap1 month day year gap2 hour minute
                                gap3 raw].
    now rewrite H1, H2, H3, H4, H6, H8, H9, H10, H12, H13, H14.
  - unfold render. cbn [concat pad size gap1 month day year gap2 hour minute
                               gap3 raw].
    now rewrite string_app_nil_r.
  - reflexivity.
Qed.

(** X11. A line [listEntries] recognises has the shape the pattern spells
    out -- white space, digits, white space, a date of two, two and two to
    four digits, white space, a time of two and two digits, white space, a
    text without line break -- and the entry is that text, trimmed. *)
Theorem matched_line_shape (line name : string) :
  matchEntryLine line = Some name ->
  exists f, wellFormed f = true /\ line = render f /\ name = trim (raw f).
Proof.
  intros H. destruct (matchEntryLine_fields line name H) as (f & Hwf & Hl & Hn).
  exists f. auto.
Qed.

Lemma match_step (tm : Term) (terms : list Term) (field rest : string)
      (groups : list string) :
  fits tm field ->
  headFails (cls tm) rest = true ->
  matchTerms terms rest = Some groups ->
  matchTerms (tm :: terms) (field ++ rest) =
  Some (if captured tm then field :: groups else groups).
Proof.
  intros (Hall & Hlo & Hhi) Hhead Hk. cbn [matchTerms].
  now rewrite (greedy_takes_run tm (matchTerms terms) rest groups Hhead Hk
                                field 0 "" Hall Hlo Hhi).
Qed.

Lemma headFails_app (c c' : ascii -> bool) (x y : string) :
  span1 c' x = true ->
  (forall a, c' a = true -> c a = false) ->
  headFails c (x ++ y) = true.
Proof.
  unfold span1, all. intros H Hd. apply andb_true_iff in H as [Hall Hlen].
  destruct x as [|a x]; [discriminate|].
  cbn [list_ascii_of_string forallb] in Hall.
  apply andb_true_iff in Hall as [Ha _].
  cbn [append headFails]. now rewrite (Hd a Ha).
Qed.

Lemma span_span1 (c : ascii -> bool) (m n : nat) (s : string) :
  span c (S m) n s = true -> span1 c s = true.
Proof.
  unfold span, span1. rewrite !andb_true_iff, !Nat.leb_le.
  intros ((H & Hlo) & _). split; [exact H|lia].
Qed.

Lemma digit_not_blank (a : ascii) :
  isDigit a = true -> isWhiteSpace a = false.
Proof.
  unfold isDigit, isWhiteSpace. rewrite andb_true_iff, !Nat.leb_le.
  intros [Hlo Hhi]. rewrite !orb_false_iff, andb_false_iff.
  rewrite !Nat.eqb_neq, !Nat.leb_gt. lia.
Qed.

Lemma blank_not_digit (a : ascii) :
  isWhiteSpace a = true -> isDigit a = false.
Proof.
  intros H. destruct (isDigit a) eqn:E; [|reflexivity].
  now rewrite (digit_not_blank a E) in H.
Qed.

Lemma digit_not_dash (a : ascii) : isDigit a = true -> only "-" a = false.
Proof.
  intros H. unfold only. destruct (Ascii.eqb a "-") eqn:E; [|reflexivity].
  apply Ascii.eqb_eq in E. now subst a.
Qed.

Lemma digit_not_colon (a : ascii) : isDigit a = true -> only ":" a = false.
Proof.
  intros H. unfold only. destruct (Ascii.eqb a ":") eqn:E; [|reflexivity].
  apply Ascii.eqb_eq in E. now subst a.
Qed.

(** The pattern on a rendered line, term by term. *)
Lemma render_recognised (f : Fields) :
  wellFormed f = true ->
  headFails isWhiteSpace (raw f) = true ->
  matchEntryLine (render f) = Some (trim (raw f)).
Proof.
  unfold wellFormed. rewrite !andb_true_iff.
  intros ((((((((((Hpad & Hsize) & Hgap1) & Hmonth) & Hday) & Hyear) & Hgap2)
               & Hhour) & Hminute) & Hgap3) & Hraw) Hhead.
  assert (H : matchTerms entryLine (render f) = Some [raw f]).
  { unfold entryLine, render.
    refine (match_step (star isWhiteSpace) _ (pad f) _ [raw f] _ _ _).
    { now apply fits_star. }
    { eapply headFails_app; [exact Hsize|exact digit_not_blank]. }
    refine (match_step (plus isDigit) _ (size f) _ [raw f] _ _ _).
    { now apply fits_plus. }
    { eapply headFails_app; [exact Hgap1|exact blank_not_digit]. }
    refine (match_step (plus isWhiteSpace) _ (gap1 f) _ [raw f] _ _ _).
    { now apply fits_plus. }
    { eapply headFails_app;
        [exact (span_span1 _ _ _ _ Hmonth)|exact digit_not_blank]. }
    refine (match_step (times 2 isDigit) _ (month f) _ [raw f] _ _ _).
    { now apply fits_between. }
    { reflexivity. }
    refine (match_step (times 1 (only "-")) _ "-" _ [raw f] _ _ _).
    { now apply fits_only. }
    { eapply headFails_app;
        [exact (span_span1 _ _ _ _ Hday)|exact digit_not_dash]. }
    refine (match_step (times 2 isDigit) _ (day f) _ [raw f] _ _ _).
    { now apply fits_between. }
    { reflexivity. }
    refine (match_step (times 1 (only "-")) _ "-" _ [raw f] _ _ _).
    { now apply fits_only. }
    { eapply headFails_app;
        [exact (span_span1 _ _ _ _ Hyear)|exact digit_not_dash]. }
    refine (match_step (between 2 4 isDigit) _ (year f) _ [raw f] _ _ _).
    { now apply fits_between. }
    { eapply headFails_app; [exact Hgap2|exact blank_not_digit]. }
    refine (match_step (plus isWhiteSpace) _ (gap2 f) _ [raw f] _ _ _).
    { now apply fits_plus. }
    { eapply headFails_app;
        [exact (span_span1 _ _ _ _ Hhour)|exact digit_not_blank]. }
    refine (match_step (times 2 isDigit) _ (hour f) _ [raw f] _ _ _).
    { now apply fits_between. }
    { reflexivity. }
    refine (match_step (times 1 (only ":")) _ ":" _ [raw f] _ _ _).
    { now apply fits_only. }
    { eapply headFails_app;
        [exact (span_span1 _ _ _ _ Hminute)|exact digit_not_colon]. }
    refine (match_step (times 2 isDigit) _ (minute f) _ [raw f] _ _ _).
    { now apply fits_between. }
    { eapply headFails_app; [exact Hgap3|exact blank_not_digit]. }
    refine (match_step (plus isWhiteSpace) _ (gap3 f) _ [raw f] _ _ _).
    { now apply fits_plus. }
    { exact Hhead. }
    rewrite <- (string_app_nil_r (raw f)) at 1.
    refine (match_step (group (plus isDot)) [] (raw f) "" [] _ _ _).
    { change (fits (plus isDot) (raw f)). now apply fits_plus. }
    { reflexivity. }
    reflexivity. }
  unfold matchEntryLine. now rewrite H.
Qed.

(** X12. A line of that shape whose text does not start with white space
    is recognised, and gives the text without its trailing white space. *)
Theorem well_formed_line_recognised (f : Fields) :
  wellFormed f = true ->
  headFails isWhiteSpace (raw f) = true ->
  matchEntryLine (render f) = Some (trim (raw f)).
Proof.
  intros Hwf Hhead. rewrite (render_recognised f Hwf Hhead). reflexivity.
Qed.

(** Two runs of one class, each followed by something outside the class:
    equal wholes have equal parts. *)
Lemma run_unique (c : ascii -> bool) :
  forall r1 r2 x1 x2,
    all c r1 = true -> all c r2 = true ->
    headFails c x1 = true -> headFails c x2 = true ->
    (r1 ++ x1 = r2 ++ x2)%string ->
    r1 = r2 /\ x1 = x2.
Proof.
  unfold all.
  induction r1 as [|a r1 IH]; intros [|b r2] x1 x2 H1 H2 Hx1 Hx2 E;
    cbn [append list_ascii_of_string forallb] in *.
  - auto.
  - subst x1. cbn [headFails] in Hx1.
    apply andb_true_iff in H2 as [Hb _]. now rewrite Hb in Hx1.
  - subst x2. cbn [headFails] in Hx2.
    apply andb_true_iff in H1 as [Ha _]. now rewrite Ha in Hx2.
  - inversion E; subst b.
    apply andb_true_iff in H1 as [_ H1]. apply andb_true_iff in H2 as [_ H2].
    destruct (IH r2 x1 x2 H1 H2 Hx1 Hx2) as [-> ->]; auto.
Qed.

Lemma span1_all (c : ascii -> bool) (s : string) :
  span1 c s = true -> all c s = true.
Proof. unfold span1. now intros H; apply andb_true_iff in H as [H _]. Qed.

(** X13. A line whose date is written year first, with three or more
    digits before the first dash -- the form [2024-01-01] shown in the
    comment above the pattern -- is not recognised. *)
Theorem year_first_date_not_recognised (blank number gap : string)
        (y1 y2 y3 : ascii) (rest : string) :
  all isWhiteSpace blank = true ->
  span1 isDigit number = true ->
  span1 isWhiteSpace gap = true ->
  isDigit y1 && isDigit y2 && isDigit y3 = true ->
  matchEntryLine
    (blank ++ number ++ gap ++ String y1 (String y2 (String y3 rest))) = None.
Proof.
  intros Hblank Hnumber Hgap Hy.
  apply andb_true_iff in Hy as [Hy Hy3]. apply andb_true_iff in Hy as [Hy1 Hy2].
  destruct (matchEntryLine _) as [name|] eqn:E; [exfalso|reflexivity].
  apply matchEntryLine_fields in E as (f & Hwf & Hline & _).
  unfold wellFormed in Hwf. rewrite !andb_true_iff in Hwf.
  destruct Hwf as ((((((((((Hpad & Hsize) & Hgap1) & Hmonth) & _) & _) & _)
                       & _) & _) & _) & _).
  unfold render in Hline.
  apply run_unique with (c := isWhiteSpace) in Hline as [_ Hline]; auto.
  2:{ eapply headFails_app; [exact Hnumber|exact digit_not_blank]. }
  2:{ eapply headFails_app; [exact Hsize|exact digit_not_blank]. }
  apply run_unique with (c := isDigit) in Hline as [_ Hline];
    auto using span1_all.
  2:{ eapply headFails_app; [exact Hgap|exact blank_not_digit]. }
  2:{ eapply headFails_app; [exact Hgap1|exact blank_not_digit]. }
  apply run_unique with (c := isWhiteSpace) in Hline as [_ Hline];
    auto using span1_all.
  2:{ cbn [headFails]. now rewrite (digit_not_blank y1 Hy1). }
  2:{ eapply headFails_app;
        [exact (span_span1 _ _ _ _ Hmonth)|exact digit_not_blank]. }
  unfold span in Hmonth. rewrite !andb_true_iff, !Nat.leb_le in Hmonth.
  destruct Hmonth as ((_ & Hlo) & Hhi).
  destruct (month f) as [|m1 [|m2 [|m3 m]]]; cbn in Hlo, Hhi; try lia.
  cbn [append] in Hline. inversion Hline; subst. discriminate.
Qed.

Lemma last_char_of_app (x y s : string) (c : ascii) :
  (x ++ y = s ++ String c "")%string -> y <> "" ->
  exists y', y = (y' ++ String c "")%string.
Proof.
  revert s; induction x as [|a x IH]; intros s E Hy.
  - now exists s.
  - destruct s as [|b s]; cbn [append] in E.
    + inversion E as [[Ha Hx]]. destruct x; [|discriminate].
      cbn in Hx. now subst y.
    + inversion E. eapply IH; eauto.
Qed.

Lemma span1_nonempty (c : ascii -> bool) (s : string) :
  span1 c s = true -> s <> "".
Proof.
  unfold span1. intros H E. subst s. cbn in H. discriminate.
Qed.

(** X14. A line that ends in a carriage return is never recognised: the
    text may not hold one and must reach the end of the line. Output with
    CR-LF line ends yields no entry at all. *)
Theorem line_ending_in_cr_not_recognised (s : string) :
  matchEntryLine (s ++ String "013" "") = None.
Proof.
  destruct (matchEntryLine _) as [name|] eqn:E; [exfalso|reflexivity].
  apply matchEntryLine_fields in E as (f & Hwf & Hline & _).
  unfold wellFormed in Hwf. rewrite !andb_true_iff in Hwf.
  destruct Hwf as (_ & Hraw).
  unfold render in Hline. symmetry in Hline.
  rewrite <- !string_app_assoc in Hline.
  apply last_char_of_app in Hline as [y' Hy'];
    [|now apply (span1_nonempty isDot)].
  apply span1_all in Hraw. rewrite Hy', all_app in Hraw.
  apply andb_true_iff in Hraw as [_ Hraw]. discriminate.
Qed.

Lemma lacksChar_app_r (c : ascii) (a b : string) :
  lacksChar c (a ++ b) = true -> lacksChar c b = true.
Proof.
  induction a as [|x a IH]; [auto|]. cbn [append lacksChar].
  intros H. apply andb_true_iff in H as [_ H]. auto.
Qed.

(** A line without a colon is never recognised. *)
Lemma line_without_colon_not_recognised (line : string) :
  lacksChar ":" line = true -> matchEntryLine line = None.
Proof.
  intros H. destruct (matchEntryLine line) as [name|] eqn:E;
    [exfalso|reflexivity].
  apply matchEntryLine_fields in E as (f & _ & -> & _).
  unfold render in H.
  do 10 apply lacksChar_app_r in H. discriminate.
Qed.

Lemma split_whole (sep : ascii) (w : string) :
  lacksChar sep w = true -> split sep w = [w].
Proof.
  induction w as [|a w IH]; [reflexivity|].
  cbn [lacksChar split]. intros H. apply andb_true_iff in H as [Ha Hw].
  apply negb_true_iff in Ha. now rewrite Ha, (IH Hw).
Qed.

(** Joining lines that hold no separator and splitting again gives the
    lines back. *)
Lemma split_join (sep : ascii) (lines : list string) :
  lines <> [] ->
  Forall (fun l => lacksChar sep l = true) lines ->
  split sep (join (String sep "") lines) = lines.
Proof.
  induction lines as [|w ws IH]; [contradiction|].
  intros _ Hall. inversion Hall as [|? ? Hw Hws]; subst.
  destruct ws as [|w' ws].
  - cbn [join]. now apply split_whole.
  - change (join (String sep "") (w :: w' :: ws))
      with (w ++ String sep (join (String sep "") (w' :: ws)))%string.
    rewrite split_app_sep, (split_whole _ _ Hw), IH; [reflexivity| |exact Hws].
    discriminate.
Qed.

Lemma trim_plain (name : string) :
  plainName name = true ->
  trim name = name /\ headFails isWhiteSpace name = true.
Proof.
  unfold plainName. rewrite !andb_true_iff. intros ((_ & Hhead) & Hlast).
  destruct name as [|a name]; [discriminate|].
  cbn [headFails] in Hhead. rewrite negb_involutive in Hhead.
  split; [|exact Hhead].
  unfold trim. cbn [list_ascii_of_string Path.dropWhile].
  apply negb_true_iff in Hhead. rewrite Hhead.
  cbn [list_ascii_of_string] in Hlast.
  destruct (List.rev (a :: list_ascii_of_string name)) as [|b l] eqn:Hr;
    [discriminate|].
  cbn [Path.dropWhile]. apply negb_true_iff in Hlast. rewrite Hlast.
  rewrite <- Hr, rev_involutive.
  change (a :: list_ascii_of_string name)
    with (list_ascii_of_string (String a name)).
  apply string_of_list_ascii_of_string.
Qed.

End LinePatternFacts.

Lemma withLinePattern_match (L : Libs) :
  matchEntryLine (withLinePattern L) = LinePattern.matchEntryLine.
Proof. reflexivity. Qed.

Section ListingInFull.
Import JsString.
Variable W : World.
Variable L : Libs.

Lemma skipBlank_app (blank x : string) :
  LinePattern.all LinePattern.isWhiteSpace blank = true ->
  LinePattern.headFails LinePattern.isWhiteSpace x = true ->
  skipBlank (blank ++ x) = x.
Proof.
  unfold LinePattern.all. induction blank as [|a blank IH]; intros Hb Hx.
  - cbn [append]. destruct x as [|b x]; [reflexivity|].
    cbn [LinePattern.headFails] in Hx. apply negb_true_iff in Hx.
    cbn [skipBlank]. now rewrite Hx.
  - cbn [list_ascii_of_string forallb] in Hb.
    apply andb_true_iff in Hb as [Ha Hb].
    cbn [append skipBlank]. rewrite Ha. now apply IH.
Qed.

(** A line that does not start, after white space, with a digit is never
    recognised. *)
Lemma line_not_starting_with_digit_not_recognised (line : string) :
  LinePattern.headFails LinePattern.isDigit (skipBlank line) = true ->
  LinePattern.matchEntryLine line = None.
Proof.
  intros H. destruct (LinePattern.matchEntryLine line) as [name|] eqn:E;
    [exfalso|reflexivity].
  apply matchEntryLine_fields in E as (f & Hwf & -> & _).
  unfold LinePattern.wellFormed in Hwf. rewrite !andb_true_iff in Hwf.
  destruct Hwf as ((((((((((Hpad & Hsize) & _) & _) & _) & _) & _) & _) & _)
                      & _) & _).
  unfold LinePattern.render in H. rewrite skipBlank_app in H; auto.
  - unfold LinePattern.span1, LinePattern.all in Hsize.
    apply andb_true_iff in Hsize as [Hall Hlen].
    destruct (LinePattern.size f) as [|a sz]; [discriminate|].
    cbn [list_ascii_of_string forallb] in Hall.
    apply andb_true_iff in Hall as [Ha _].
    cbn [append LinePattern.headFails] in H. now rewrite Ha in H.
  - eapply headFails_app; [exact Hsize|exact digit_not_blank].
Qed.

Lemma entriesOfLines_no_rows (lines : list string) :
  Forall (fun l => noRow l = true) lines ->
  entriesOfLines (withLinePattern L) lines = [].
Proof.
  induction 1 as [|l lines Hl _ IH]; [reflexivity|].
  unfold entriesOfLines in *. cbn [flat_map].
  rewrite withLinePattern_match in *.
  unfold noRow in Hl. apply andb_true_iff in Hl as [_ Hl].
  apply orb_true_iff in Hl as [Hl|Hl].
  - rewrite (line_without_colon_not_recognised l Hl). exact IH.
  - rewrite (line_not_starting_with_digit_not_recognised l Hl). exact IH.
Qed.

Lemma entriesOfLines_rows (rows : list LinePattern.Fields) :
  Forall (fun f => plainRow f = true) rows ->
  entriesOfLines (withLinePattern L) (map LinePattern.render rows)
  = map LinePattern.raw rows.
Proof.
  induction 1 as [|f rows Hf _ IH]; [reflexivity|].
  unfold entriesOfLines in *.
  cbn [map flat_map]. rewrite withLinePattern_match in *.
  unfold plainRow in Hf. rewrite !andb_true_iff in Hf.
  destruct Hf as ((Hwf & Hplain) & _).
  destruct (trim_plain _ Hplain) as [Htrim Hhead].
  rewrite (render_recognised f Hwf Hhead), Htrim.
  cbn [app]. now rewrite IH.
Qed.


(** X15. [listEntries] on a listing gives back the names of its rows, in
    order, and nothing else: the lines before and after the rows (archive
    name, headers, rules, totals -- lines without a colon or not starting
    with a number) are skipped, and each row with a date of two, two and two
    to four digits and a plain name yields its name unchanged. *)
Theorem listEntries_gives_back_row_names (ipaPath : string) (t : Trace)
        (before : list string) (rows : list LinePattern.Fields)
        (after : list string) :
  execText W t "unzip" ["-l"; "--"; ipaPath] None
  = Some (listing before rows after) ->
  Forall (fun l => noRow l = true) before ->
  Forall (fun f => plainRow f = true) rows ->
  Forall (fun l => noRow l = true) after ->
  listEntries W (withLinePattern L) ipaPath t =
  (t ++ [ExecFile "unzip" ["-l"; "--"; ipaPath] None],
   Ok (map LinePattern.raw rows)).
Proof.
  intros Hexec Hbefore Hrows Hafter.
  unfold listEntries, bind, execFileText. rewrite call_run, Hexec.
  unfold ret. f_equal. f_equal. unfold listing.
  destruct (before ++ map LinePattern.render rows ++ after)
    as [|l ls] eqn:Hlines.
  - apply app_eq_nil in Hlines as [_ Hlines].
    apply app_eq_nil in Hlines as [Hlines _].
    destruct rows; [reflexivity|discriminate].
  - rewrite <- Hlines. rewrite split_join.
    + unfold entriesOfLines. rewrite !flat_map_app.
      fold (entriesOfLines (withLinePattern L) before).
      fold (entriesOfLines (withLinePattern L)
                           (map LinePattern.render rows)).
      fold (entriesOfLines (withLinePattern L) after).
      rewrite (entriesOfLines_no_rows before Hbefore).
      rewrite (entriesOfLines_no_rows after Hafter).
      rewrite (entriesOfLines_rows rows Hrows).
      now rewrite app_nil_r.
    + now rewrite Hlines.
    + apply Forall_app. split; [|apply Forall_app; split].
      * eapply Forall_impl; [|exact Hbefore]. intros a Ha.
        unfold noRow in Ha. now apply andb_true_iff in Ha as [Ha _].
      * apply Forall_map. eapply Forall_impl; [|exact Hrows]. intros f Hf.
        unfold plainRow in Hf. now apply andb_true_iff in Hf as [_ Hf].
      * eapply Forall_impl; [|exact Hafter]. intros a Ha.
        unfold noRow in Ha. now apply andb_true_iff in Ha as [Ha _].
Qed.

End ListingInFull.

(** ** What the guard of [addFilesToZip] guarantees *)

Section GuardInFull.
Import JsString.

Lemma gather_absolute (cwd : string) :
  Path.isAbsolute cwd = true ->
  forall revArgs acc, snd (Path.gather revArgs cwd acc) = true.
Proof.
  intros Habs. induction revArgs as [|p rest IH]; intros acc.
  - cbn [Path.gather]. destruct cwd as [|a cwd]; [discriminate|].
    cbn [isEmpty snd]. exact Habs.
  - cbn [Path.gather]. destruct (isEmpty p); [apply IH|].
    destruct (Path.isAbsolute p); [reflexivity|apply IH].
Qed.

Lemma pushSegment_kept (acc : list string) (seg : string) :
  Forall keptSegment acc -> lacksChar "/" seg = true ->
  Forall keptSegment (Path.pushSegment false acc seg).
Proof.
  intros Hacc Hseg. unfold Path.pushSegment.
  destruct (isEmpty seg || String.eqb seg ".") eqn:E1; [exact Hacc|].
  destruct (String.eqb seg "..") eqn:E2.
  - destruct acc as [|top rest]; [constructor|].
    destruct (String.eqb top ".."); [exact Hacc|].
    now inversion Hacc.
  - constructor; [|exact Hacc]. split; [|exact Hseg].
    unfold properSegment. apply orb_false_iff in E1 as [-> ->].
    now rewrite E2.
Qed.

Lemma fold_pushSegment_kept (segs acc : list string) :
  Forall keptSegment acc ->
  Forall (fun seg => lacksChar "/" seg = true) segs ->
  Forall keptSegment (fold_left (Path.pushSegment false) segs acc).
Proof.
  revert acc; induction segs as [|seg segs IH]; intros acc Hacc Hsegs;
    [exact Hacc|].
  inversion Hsegs; subst. cbn [fold_left].
  apply IH; [now apply pushSegment_kept|assumption].
Qed.

(** With an absolute working directory, [path.resolve] gives a slash
    followed by proper segments joined by slashes. *)
Lemma resolve_normal (cwd : string) (args : list string) :
  Path.isAbsolute cwd = true ->
  exists segs,
    Path.resolve cwd args = ("/" ++ join "/" segs)%string
    /\ Forall keptSegment segs.
Proof.
  intros Habs. unfold Path.resolve.
  pose proof (gather_absolute cwd Habs (List.rev args) "") as Hg.
  destruct (Path.gather (List.rev args) cwd "") as [p absolute].
  cbn [snd] in Hg. subst absolute. cbn [negb].
  unfold Path.normalizeString.
  exists (List.rev (fold_left (Path.pushSegment false) (split "/" p) [])).
  split; [reflexivity|].
  apply Forall_rev. apply fold_pushSegment_kept; [constructor|].
  apply split_lacks_sep.
Qed.

Lemma split_of_normal (segs : list string) :
  Forall keptSegment segs ->
  split "/" ("/" ++ join "/" segs)
  = "" :: match segs with [] => [""] | _ => segs end.
Proof.
  intros H. change ("/" ++ join "/" segs)%string
    with (String "/" (join "/" segs)).
  cbn [split]. rewrite Ascii.eqb_refl.
  f_equal. destruct segs as [|s segs]; [reflexivity|].
  apply split_join; [discriminate|].
  eapply Forall_impl; [|exact H]. now intros a [_ Ha].
Qed.

End GuardInFull.

Section GuardTheorem.
Import JsString.
Variable W : World.

(** X16. What passing the guard means, the working directory being
    absolute: the resolved destination has the path components of the
    resolved staging directory followed by at least one more component,
    and none of the further components is empty, [.] or [..]. The
    destination is a strict descendant of the staging directory. *)
Theorem guard_means_strict_descendant (tmpDir entry : string) :
  Path.isAbsolute (process_cwd W) = true ->
  insideStaging W tmpDir entry = true ->
  exists more,
    more <> []
    /\ split "/" (Path.resolve (process_cwd W) [tmpDir; entry])
       = split "/" (Path.resolve (process_cwd W) [tmpDir]) ++ more
    /\ forallb properSegment more = true.
Proof.
  intros Habs Hin. unfold insideStaging in Hin.
  apply startsWith_inv in Hin as [rest Hfull].
  destruct (resolve_normal (process_cwd W) [tmpDir; entry] Habs)
    as (segsF & HF & HkF).
  destruct (resolve_normal (process_cwd W) [tmpDir] Habs)
    as (segsR & HR & HkR).
  exists (split "/" rest).
  split; [apply split_nonempty|].
  assert (Hsplit :
    split "/" (Path.resolve (process_cwd W) [tmpDir; entry])
    = split "/" (Path.resolve (process_cwd W) [tmpDir]) ++ split "/" rest).
  { rewrite Hfull at 1. unfold Path.sep.
    rewrite string_app_assoc.
    change ("/" ++ rest)%string with (String "/" rest).
    apply split_app_sep. }
  split; [exact Hsplit|].
  rewrite HF, HR in Hsplit.
  rewrite (split_of_normal _ HkF), (split_of_normal _ HkR) in Hsplit.
  cbn [app] in Hsplit. inversion Hsplit as [Htail]. clear Hsplit.
  pose proof (split_nonempty "/" rest) as Hne.
  destruct segsF as [|f segsF].
  - exfalso. destruct segsR as [|r segsR].
    + destruct (split "/" rest); [contradiction|discriminate].
    + destruct segsR; destruct (split "/" rest);
        try contradiction; discriminate.
  - assert (Hall : Forall keptSegment (split "/" rest)).
    { assert (Hw : Forall keptSegment
                          (match segsR with [] => [""] | _ => segsR end
                           ++ split "/" rest))
        by (rewrite <- Htail; exact HkF).
      now apply Forall_app in Hw as [_ Hw]. }
    apply forallb_forall. intros seg Hseg.
    rewrite Forall_forall in Hall. now apply Hall.
Qed.

End GuardTheorem.

Section EscapingPlan.
Variable W : World.
Variable L : Libs.

(** X17. A plan with an item that would land outside the staging directory
    -- for instance a manifest path with enough parent-directory segments
    -- makes [inject] fail without starting [zip]: the archive is left as it
    was. On a file system that does not fail the failure is [UnsafePath]
    for the first such item. *)
Theorem inject_rejects_escaping_plan (sinfs : list Sinf) (ipaPath : string)
        (meta : option string) (files : list InjectFile) (bad : InjectFile)
        (tmpDir : string) (t t1 : Trace) :
  planFiles W L sinfs ipaPath meta t = (t1, Ok files) ->
  fs_mkdtemp W t1 (stagingPrefix W) = Some tmpDir ->
  In bad files ->
  escapesStaging W tmpDir bad = true ->
  exists d e,
    inject W L sinfs ipaPath meta t = (t1 ++ d, Throw e)
    /\ Forall (fun ev => isArchiveUpdate ev = false) d
    /\ (fsNeverFails W ->
        exists first,
          find (escapesStaging W tmpDir) files = Some first
          /\ e = UnsafePath (entryPath first)).
Proof.
  intros Hplan Hmk Hin Hbad.
  destruct (find_of_In _ _ _ Hin Hbad) as [first Hfirst].
  destruct (addFilesToZip_run W ipaPath files tmpDir t1 Hmk)
    as (d & r & Hstage & Hd & Hrun).
  destruct (stageFiles_run W tmpDir files []
                           (t1 ++ [Mkdtemp (stagingPrefix W)]))
    as (d' & r' & Hstage' & _ & _ & Hstop).
  rewrite Hstage in Hstage'. inversion Hstage' as [[Hdd Hrr]].
  apply app_inv_head in Hdd. subst d' r'.
  destruct (Hstop _ Hfirst) as (e & -> & He).
  assert (Hinj : inject W L sinfs ipaPath meta t
                 = addFilesToZip W ipaPath files t1).
  { unfold inject, bind. rewrite Hplan.
    destruct files; [contradiction|reflexivity]. }
  rewrite Hinj, Hrun. unfold finishStaging.
  exists ([Mkdtemp (stagingPrefix W)] ++ d ++ [Rm tmpDir]).
  exists (if fs_rm W ((t1 ++ [Mkdtemp (stagingPrefix W)]) ++ d) tmpDir
          then e else FsFailure "rm").
  split; [|split].
  - rewrite <- !app_assoc.
    destruct (fs_rm W _ tmpDir); reflexivity.
  - apply Forall_app. split; [now constructor|].
    apply Forall_app. split; [|now constructor].
    eapply Forall_impl; [|exact Hd]. intros ev.
    apply stagedFrom_not_update.
  - intros Hfs. exists first. split; [exact Hfirst|].
    pose proof Hfs as (_ & _ & Hrm). rewrite Hrm. now apply He.
Qed.

End EscapingPlan.

(** * Concrete runs *)

Section ConcreteRuns.
Import JsString Sample.

Example sample_listing_parsed :
  listEntries (world fooArchive) libs "app.ipa" [] =
  ([ExecFile "unzip" ["-l"; "--"; "app.ipa"] None],
   Ok ["Payload/Foo.app/Info.plist";
       "Payload/Foo.app/SC_Info/Manifest.plist";
       "Payload/Foo.app/SC_Info/Foo"]).
Proof. vm_compute. reflexivity. Qed.

(** The end-to-end scenario of the specification: one blob, one manifest
    path, one item written and handed to [zip]. *)
Example end_to_end_scenario :
  inject (world fooArchive) libs [blob1] "app.ipa" None [] =
  ([ExecFile "unzip" ["-l"; "--"; "app.ipa"] None;
    ExecFile "unzip" ["-p"; "--"; "app.ipa";
                      "Payload/Foo.app/SC_Info/Manifest.plist"] None;
    Mkdtemp "/tmp/sinf-";
    Mkdir "/tmp/sinf-AbCdEf/Payload/Foo.app/SC_Info";
    WriteFile "/tmp/sinf-AbCdEf/Payload/Foo.app/SC_Info/Foo.sinf"
              [x01; x02; x03];
    ExecFile "zip" ["-0"; "app.ipa"; "--"; "Payload/Foo.app/SC_Info/Foo.sinf"]
             (Some "/tmp/sinf-AbCdEf");
    Rm "/tmp/sinf-AbCdEf"],
   Ok tt).
Proof. vm_compute. reflexivity. Qed.


(** *** C1 *)

(** C1, as stated, fails: a destination with a parent-directory segment
    that resolves below the staging directory passes the guard; its bytes
    are written there and [zip] is started. *)
Lemma parent_segment_inside_staging_is_staged :
  hasParentSegment (entryPath detourItem) = true
  /\ addFilesToZip (world fooArchive) "app.ipa" [detourItem] [] =
     ([Mkdtemp "/tmp/sinf-";
       Mkdir "/tmp/sinf-AbCdEf/Payload/Foo.app/SC_Info";
       WriteFile "/tmp/sinf-AbCdEf/Payload/Foo.app/SC_Info/Foo.sinf"
                 [x01; x02; x03];
       ExecFile "zip"
                ["-0"; "app.ipa"; "--";
                 "Payload/Foo.app/SC_Info/../SC_Info/Foo.sinf"]
                (Some "/tmp/sinf-AbCdEf");
       Rm "/tmp/sinf-AbCdEf"],
      Ok tt).
Proof. split; vm_compute; reflexivity. Qed.

Lemma sample_fs_never_fails (archive : list (string * Buffer)) :
  fsNeverFails (world archive).
Proof. repeat split. Qed.

Lemma addFilesToZip_rejects_escaping_item_witness :
  exists d e first before after,
    addFilesToZip (world fooArchive) "app.ipa" [safeItem; escapingItem] [] =
      ([] ++ [Mkdtemp (stagingPrefix (world fooArchive))] ++ d ++ [Rm staging],
       Throw e)
    /\ find (escapesStaging (world fooArchive) staging)
            [safeItem; escapingItem] = Some first
    /\ [safeItem; escapingItem] = before ++ first :: after
    /\ forallb (fun f => insideStaging (world fooArchive) staging (entryPath f))
               before = true
    /\ escapesStaging (world fooArchive) staging first = true
    /\ (stagingCallsSucceed (world fooArchive) staging before
                            ([] ++ [Mkdtemp (stagingPrefix (world fooArchive))])
        = true ->
        d = stagingEvents (world fooArchive) staging before
        /\ e = if fs_rm (world fooArchive)
                        ([] ++ [Mkdtemp (stagingPrefix (world fooArchive))] ++ d)
                        staging
               then UnsafePath (entryPath first)
               else FsFailure "rm")
    /\ (fsNeverFails (world fooArchive) -> e = UnsafePath (entryPath first))
    /\ Forall (stagedFrom (world fooArchive) staging [safeItem; escapingItem]) d
    /\ Forall (fun ev => isArchiveUpdate ev = false) d
    /\ (forall file bytes,
          In (WriteFile file bytes) d ->
          startsWith
            file
            (Path.resolve (process_cwd (world fooArchive)) [staging]
             ++ Path.sep)%string = true).
Proof.
  apply (addFilesToZip_rejects_escaping_item
           (world fooArchive) "app.ipa" [safeItem; escapingItem]
           escapingItem staging []).
  - reflexivity.
  - right; left; reflexivity.
  - reflexivity.
Defined.

Example escaping_item_run :
  addFilesToZip (world fooArchive) "app.ipa" [safeItem; escapingItem] [] =
  ([Mkdtemp "/tmp/sinf-";
    Mkdir "/tmp/sinf-AbCdEf/Payload/Foo.app/SC_Info";
    WriteFile "/tmp/sinf-AbCdEf/Payload/Foo.app/SC_Info/Foo.sinf"
              [x01; x02; x03];
    Rm "/tmp/sinf-AbCdEf"],
   Throw (UnsafePath "../../etc/passwd")).
Proof. vm_compute. reflexivity. Qed.

(** The same batch when the final [rm] fails: the failure reported is the
    one of the [rm], which replaces the rejection of the item. *)
Example escaping_item_run_with_failing_rm :
  addFilesToZip (worldWithFailingRm fooArchive) "app.ipa"
                [safeItem; escapingItem] [] =
  ([Mkdtemp "/tmp/sinf-";
    Mkdir "/tmp/sinf-AbCdEf/Payload/Foo.app/SC_Info";
    WriteFile "/tmp/sinf-AbCdEf/Payload/Foo.app/SC_Info/Foo.sinf"
              [x01; x02; x03];
    Rm "/tmp/sinf-AbCdEf"],
   Throw (FsFailure "rm")).
Proof. vm_compute. reflexivity. Qed.

(** *** C2 *)

(** C2, as stated, fails: for a path with parent-directory segments and for
    an absolute path, [readEntry] starts the extraction; the failure is the
    tool's, which finds no such member. *)
Lemma readEntry_starts_extraction_for_traversing_path :
  hasParentSegment "../../etc/passwd" = true
  /\ readEntry (world fooArchive) "app.ipa" "../../etc/passwd" [] =
     ([ExecFile "unzip" ["-p"; "--"; "app.ipa"; "../../etc/passwd"] None],
      Throw (ArchiveToolFailure "unzip"))
  /\ Path.isAbsolute "/etc/passwd" = true
  /\ readEntry (world fooArchive) "app.ipa" "/etc/passwd" [] =
     ([ExecFile "unzip" ["-p"; "--"; "app.ipa"; "/etc/passwd"] None],
      Throw (ArchiveToolFailure "unzip")).
Proof. repeat split; vm_compute; reflexivity. Qed.

(** *** C3 *)

(** C3, as stated, fails: on a buffer that starts with the magic header and
    that the binary decoder rejects, the result is what the XML parser
    makes of it. *)
Lemma magic_header_falls_through_to_xml :
  hasBinaryMagic truncatedBinary = true
  /\ bplistParser_parseBuffer libs truncatedBinary = None
  /\ parsePlistBuffer (withPlistParse libs (fun _ => Some (PDict [])))
                      truncatedBinary = PDict []
  /\ parsePlistBuffer (withPlistParse libs (fun _ => None))
                      truncatedBinary = PNull.
Proof. repeat split; vm_compute; reflexivity. Qed.

(** *** C4 *)



(** A bundle name with [.app] inside it: the first [.app] is removed, not
    the extension. *)
Example readBundleName_inner_app :
  readBundleName ["Payload/Foo.apple.app/Info.plist"] = Ok "Foole.app".
Proof. vm_compute. reflexivity. Qed.

Example spec_and_code_agree_on_plain_bundle :
  Spec.findBundleRoot ["Payload/Foo.app/Info.plist"] = Ok "Foo"
  /\ readBundleName ["Payload/Foo.app/Info.plist"] = Ok "Foo".
Proof. split; vm_compute; reflexivity. Qed.

(** *** C5 *)

Lemma manifest_plan_pairs_by_index_witness :
  let items :=
    map (manifestItem libs "Foo")
        (combine ["SC_Info/Foo.sinf"] [blob1; blob2]) in
  sinfFiles (world fooArchive) libs [blob1; blob2] "app.ipa"
            (map fst fooArchive) "Foo" [] =
    ([ExecFile "unzip" ["-p"; "--"; "app.ipa";
                        "Payload/Foo.app/SC_Info/Manifest.plist"] None],
     Ok items)
  /\ List.length items = Nat.min 1 2
  /\ forall i p s,
      nth_error ["SC_Info/Foo.sinf"] i = Some p ->
      nth_error [blob1; blob2] i = Some s ->
      nth_error items i =
      Some {| entryPath := ("Payload/" ++ "Foo" ++ ".app/" ++ p)%string;
              data := Buffer_from_base64 libs (sinf s) |}.
Proof.
  apply (manifest_plan_pairs_by_index
           (world fooArchive) libs [blob1; blob2] "app.ipa"
           (map fst fooArchive) "Foo" ["SC_Info/Foo.sinf"] []).
  vm_compute. reflexivity.
Defined.

(** *** C6 *)

Lemma manifest_priority_and_fallback_witness :
  sinfFiles (world fooArchive) libs [blob1; blob2] "app.ipa"
            (map fst fooArchive) "Foo" [] =
    ([ExecFile "unzip" ["-p"; "--"; "app.ipa";
                        "Payload/Foo.app/SC_Info/Manifest.plist"] None],
     Ok [{| entryPath := "Payload/Foo.app/SC_Info/Foo.sinf";
            data := [x01; x02; x03] |}])
  /\ sinfFiles (world plainArchive) libs [blob1; blob2] "app.ipa"
               (map fst plainArchive) "Foo" [] =
     ([ExecFile "unzip" ["-p"; "--"; "app.ipa";
                         "Payload/Foo.app/Info.plist"] None],
      Ok [{| entryPath := "Payload/Foo.app/SC_Info/Foo.sinf";
             data := [x01; x02; x03] |}]).
Proof.
  split.
  - refine (proj2 (proj1 (manifest_priority_and_fallback
                            (world fooArchive) libs [blob1; blob2] "app.ipa"
                            (map fst fooArchive) "Foo" [] _ []
                            {| sinfPaths := [PString "SC_Info/Foo.sinf"] |}
                            ["SC_Info/Foo.sinf"]
                            {| bundleExecutable := "Foo" |} blob1 [blob2])
                         _) _).
    + vm_compute. reflexivity.
    + reflexivity.
  - apply (proj2 (manifest_priority_and_fallback
                    (world plainArchive) libs [blob1; blob2] "app.ipa"
                    (map fst plainArchive) "Foo" [] [] _
                    {| sinfPaths := [] |} []
                    {| bundleExecutable := "Foo" |} blob1 [blob2])).
    + vm_compute. reflexivity.
    + vm_compute. reflexivity.
Defined.

(** A manifest element that cannot be rendered as text: the template
    throws and nothing is planned. *)
Example unprintable_manifest_element :
  manifestFiles libs "Foo" [blob1] 0 [Hostile.unprintable] = Throw TypeError
  /\ manifestFiles libs "Foo" [blob1] 0 [PInteger 5] =
     Ok [{| entryPath := "Payload/Foo.app/5"; data := [x01; x02; x03] |}]
  /\ manifestFiles libs "Foo" [] 0 [Hostile.unprintable] = Ok [].
Proof. repeat split; vm_compute; reflexivity. Qed.

(** *** C7 *)

(** C7, as stated, fails: the located bundle is [Foo], the manifest read
    and used is the one of [Bar]. *)
Lemma manifest_read_from_another_bundle :
  readBundleName (map fst twoBundleArchive) = Ok "Foo"
  /\ readManifestPlist (world twoBundleArchive) libs "app.ipa"
                       (map fst twoBundleArchive) [] =
     ([ExecFile "unzip" ["-p"; "--"; "app.ipa";
                         "Payload/Bar.app/SC_Info/Manifest.plist"] None],
      Ok (Some {| sinfPaths := [PString "SC_Info/Foo.sinf"] |}))
  /\ startsWith "Payload/Bar.app/SC_Info/Manifest.plist" "Payload/Foo.app/"
     = false.
Proof. repeat split; vm_compute; reflexivity. Qed.

(** *** C8 *)


Example metadata_fallback_run :
  planFiles (world fooArchive) libs [blob1] "app.ipa" (Some "bm90IHhtbA==") []
  = ([ExecFile "unzip" ["-l"; "--"; "app.ipa"] None;
      ExecFile "unzip" ["-p"; "--"; "app.ipa";
                        "Payload/Foo.app/SC_Info/Manifest.plist"] None],
     Ok [{| entryPath := "Payload/Foo.app/SC_Info/Foo.sinf";
            data := [x01; x02; x03] |};
         {| entryPath := "iTunesMetadata.plist";
            data := bytesOfString "not xml" |}]).
Proof. vm_compute. reflexivity. Qed.

(** *** C9 *)

Lemma empty_plan_skips_write_witness :
  (inject (world fooArchive) libs [] "app.ipa" None [] =
     ([ExecFile "unzip" ["-l"; "--"; "app.ipa"] None;
       ExecFile "unzip" ["-p"; "--"; "app.ipa";
                         "Payload/Foo.app/SC_Info/Manifest.plist"] None],
      Ok tt)
   /\ exists d,
       [ExecFile "unzip" ["-l"; "--"; "app.ipa"] None;
        ExecFile "unzip" ["-p"; "--"; "app.ipa";
                          "Payload/Foo.app/SC_Info/Manifest.plist"] None]
       = [] ++ d /\ Forall readsOnly d)
  /\ exists d r,
      inject (world plainArchive) libs [] "app.ipa" (Some "") [] = ([] ++ d, r)
      /\ Forall readsOnly d.
Proof.
  split.
  - apply (proj1 (empty_plan_skips_write
                    (world fooArchive) libs [] "app.ipa" None [] _)).
    vm_compute. reflexivity.
  - apply (proj2 (empty_plan_skips_write
                    (world plainArchive) libs [] "app.ipa" (Some "") [] [])).
    right. reflexivity.
Defined.

(** *** C10 *)

Lemma empty_metadata_absent_and_metadata_last_witness :
  (exists drm,
      [ {| entryPath := "Payload/Foo.app/SC_Info/Foo.sinf";
           data := [x01; x02; x03] |};
        metadataItem libs "bm90IHhtbA==" ]
      = drm ++ [metadataItem libs "bm90IHhtbA=="]
      /\ planFiles (world fooArchive) libs [blob1] "app.ipa" None [] =
         ([ExecFile "unzip" ["-l"; "--"; "app.ipa"] None;
           ExecFile "unzip" ["-p"; "--"; "app.ipa";
                             "Payload/Foo.app/SC_Info/Manifest.plist"] None],
          Ok drm)
      /\ forallb (fun f => negb (isMetadataPath f)) drm = true)
  /\ emits (metadataLast "app.ipa")
           (inject (world fooArchive) libs [blob1] "app.ipa"
                   (Some "bm90IHhtbA==")).
Proof.
  pose proof (empty_metadata_absent_and_metadata_last
                (world fooArchive) libs [blob1] "app.ipa")
    as (_ & _ & Hlast & Hzip).
  split.
  - apply (Hlast (Some "bm90IHhtbA==") []).
    + vm_compute. reflexivity.
    + right; left; reflexivity.
    + reflexivity.
  - apply Hzip. reflexivity.
Defined.

Example metadata_last_run :
  inject (world fooArchive) libs [blob1] "app.ipa" (Some "bm90IHhtbA==") [] =
  ([ExecFile "unzip" ["-l"; "--"; "app.ipa"] None;
    ExecFile "unzip" ["-p"; "--"; "app.ipa";
                      "Payload/Foo.app/SC_Info/Manifest.plist"] None;
    Mkdtemp "/tmp/sinf-";
    Mkdir "/tmp/sinf-AbCdEf/Payload/Foo.app/SC_Info";
    WriteFile "/tmp/sinf-AbCdEf/Payload/Foo.app/SC_Info/Foo.sinf"
              [x01; x02; x03];
    Mkdir "/tmp/sinf-AbCdEf";
    WriteFile "/tmp/sinf-AbCdEf/iTunesMetadata.plist"
              (bytesOfString "not xml");
    ExecFile "zip" ["-0"; "app.ipa"; "--"; "Payload/Foo.app/SC_Info/Foo.sinf";
                    "iTunesMetadata.plist"]
             (Some "/tmp/sinf-AbCdEf");
    Rm "/tmp/sinf-AbCdEf"],
   Ok tt).
Proof. vm_compute. reflexivity. Qed.

(** Index tolerance, as in the specification: three paths and two blobs,
    two paths and three blobs. *)
Example index_tolerance :
  mapOutcome (map entryPath)
             (manifestFiles libs "Foo" [blob1; blob2] 0
                            [PString "a.sinf"; PString "b.sinf"; PString "c.sinf"])
  = Ok ["Payload/Foo.app/a.sinf"; "Payload/Foo.app/b.sinf"]
  /\ mapOutcome (map entryPath)
                (manifestFiles libs "Foo" [blob1; blob2; blob1] 0
                               [PString "a.sinf"; PString "b.sinf"])
     = Ok ["Payload/Foo.app/a.sinf"; "Payload/Foo.app/b.sinf"].
Proof. split; reflexivity. Qed.

End ConcreteRuns.

(** * Further concrete runs *)

Section FurtherRuns.
Import JsString Sample.

Example pattern_on_listing_lines :
  map LinePattern.matchEntryLine
      ["  Length      Date    Time    Name";
       "---------  ---------- -----   ----";
       "     1234  2024-01-01 00:00   Payload/App.app/file";
       "       17  01-31-24 23:59   Payload/My App.app/Info.plist  ";
       "---------                     -------";
       "     1251                     2 files";
       "";
       "        0  2024-01-01 00:00    ";
       "        0  2024-01-01 00:00";
       "        0  2024-01-011 00:00 x";
       "        0  01-31-2024 00:00   name" ++ String "013" "";
       "        0  01-31-2024 00:00   name";
       "        0  01-31-2024 00:00   ";
       "0 01-31-20245 00:00 name"]%string
  = [None; None; None;
     Some "Payload/My App.app/Info.plist"; None; None; None;
     None; None; None; None; Some "name"; Some ""; None].
Proof. vm_compute. reflexivity. Qed.

(** A listing with year-first dates names no entry, so [inject] finds no
    bundle. *)
Example year_first_listing_has_no_bundle :
  inject (YearFirst.world fooArchive) libs [blob1] "app.ipa" None [] =
  ([ExecFile "unzip" ["-l"; "--"; "app.ipa"] None], Throw BundleNotFound).
Proof. vm_compute. reflexivity. Qed.

(** With a month-first listing the end-to-end scenario goes through. *)
Example month_first_end_to_end :
  inject (MonthFirst.world fooArchive) (withLinePattern libs) [blob1]
         "app.ipa" None [] =
  ([ExecFile "unzip" ["-l"; "--"; "app.ipa"] None;
    ExecFile "unzip" ["-p"; "--"; "app.ipa";
                      "Payload/Foo.app/SC_Info/Manifest.plist"] None;
    Mkdtemp "/tmp/sinf-";
    Mkdir "/tmp/sinf-AbCdEf/Payload/Foo.app/SC_Info";
    WriteFile "/tmp/sinf-AbCdEf/Payload/Foo.app/SC_Info/Foo.sinf"
              [x01; x02; x03];
    ExecFile "zip" ["-0"; "app.ipa"; "--"; "Payload/Foo.app/SC_Info/Foo.sinf"]
             (Some "/tmp/sinf-AbCdEf");
    Rm "/tmp/sinf-AbCdEf"],
   Ok tt).
Proof. vm_compute. reflexivity. Qed.

Lemma addFilesToZip_stages_then_updates_witness :
  addFilesToZip (world fooArchive) "app.ipa" [safeItem] [] =
  (([] ++ [Mkdtemp (stagingPrefix (world fooArchive))]
       ++ stagingEvents (world fooArchive) staging [safeItem])
     ++ [zipCall "app.ipa" [safeItem] staging; Rm staging],
   Ok tt).
Proof.
  apply (addFilesToZip_stages_then_updates
           (world fooArchive) "app.ipa" [safeItem] staging []).
  - reflexivity.
  - repeat split.
  - reflexivity.
Defined.

Lemma inject_locator_failed_witness :
  inject (world Hostile.brokenArchive) libs [blob1] "app.ipa"
         (Some "bm90IHhtbA==") [] =
    ([ExecFile "unzip" ["-l"; "--"; "app.ipa"] None;
      ExecFile "unzip" ["-p"; "--"; "app.ipa"; "Payload/Foo.app/Info.plist"]
               None],
     Throw LocatorFailed)
  /\ exists d,
      [ExecFile "unzip" ["-l"; "--"; "app.ipa"] None;
       ExecFile "unzip" ["-p"; "--"; "app.ipa"; "Payload/Foo.app/Info.plist"]
                None]
      = [] ++ d /\ Forall readsOnly d.
Proof.
  apply (inject_locator_failed
           (world Hostile.brokenArchive) libs [blob1] "app.ipa"
           (Some "bm90IHhtbA==") ["Payload/Foo.app/Info.plist"] "Foo" []
           [ExecFile "unzip" ["-l"; "--"; "app.ipa"] None]
           [ExecFile "unzip" ["-l"; "--"; "app.ipa"] None]);
    vm_compute; reflexivity.
Defined.

Lemma readBundleName_is_one_component_witness :
  lacksChar "/" "Foo" = true.
Proof.
  apply (readBundleName_is_one_component
           ["Payload/Foo.app/Watch/W.app/Info.plist";
            "Payload/Foo.app/Info.plist"] "Foo").
  reflexivity.
Defined.

Lemma sinf_items_lie_under_bundle_witness :
  Forall (fun f => startsWith (entryPath f) "Payload/Foo.app/" = true)
         [{| entryPath := "Payload/Foo.app/SC_Info/Foo.sinf";
             data := [x01; x02; x03] |}].
Proof.
  apply (sinf_items_lie_under_bundle
           (world fooArchive) libs [blob1; blob2] "app.ipa"
           (map fst fooArchive) "Foo" []
           [ExecFile "unzip" ["-p"; "--"; "app.ipa";
                              "Payload/Foo.app/SC_Info/Manifest.plist"] None]).
  vm_compute. reflexivity.
Defined.

Lemma matched_line_shape_witness :
  exists f,
    LinePattern.wellFormed f = true
    /\ "       17  01-31-24 23:59   Payload/My App.app/Info.plist  "
       = LinePattern.render f
    /\ "Payload/My App.app/Info.plist" = LinePattern.trim (LinePattern.raw f).
Proof.
  apply (matched_line_shape
           "       17  01-31-24 23:59   Payload/My App.app/Info.plist  "
           "Payload/My App.app/Info.plist").
  vm_compute. reflexivity.
Defined.

Lemma well_formed_line_recognised_witness :
  LinePattern.matchEntryLine
    (LinePattern.render (MonthFirst.row "Payload/Foo.app/Info.plist  "))
  = Some (LinePattern.trim "Payload/Foo.app/Info.plist  ").
Proof.
  apply (well_formed_line_recognised
           (MonthFirst.row "Payload/Foo.app/Info.plist  "));
    vm_compute; reflexivity.
Defined.

Lemma year_first_date_not_recognised_witness :
  LinePattern.matchEntryLine
    "     1234  2024-01-01 00:00   Payload/App.app/file" = None.
Proof.
  apply (year_first_date_not_recognised
           "     " "1234" "  " "2" "0" "2"
           "4-01-01 00:00   Payload/App.app/file");
    vm_compute; reflexivity.
Defined.

Lemma listEntries_gives_back_row_names_witness :
  listEntries (MonthFirst.world fooArchive) (withLinePattern libs)
              "app.ipa" [] =
  ([] ++ [ExecFile "unzip" ["-l"; "--"; "app.ipa"] None],
   Ok (map LinePattern.raw (MonthFirst.rowsOf fooArchive))).
Proof.
  apply (listEntries_gives_back_row_names
           (MonthFirst.world fooArchive) libs "app.ipa" []
           MonthFirst.head (MonthFirst.rowsOf fooArchive) MonthFirst.foot).
  - reflexivity.
  - repeat constructor.
  - repeat constructor.
  - repeat constructor.
Defined.

Lemma guard_means_strict_descendant_witness :
  exists more,
    more <> []
    /\ split "/" (Path.resolve (process_cwd (world fooArchive))
                               [staging; entryPath detourItem])
       = split "/" (Path.resolve (process_cwd (world fooArchive)) [staging])
         ++ more
    /\ forallb properSegment more = true.
Proof.
  apply (guard_means_strict_descendant
           (world fooArchive) staging (entryPath detourItem));
    reflexivity.
Defined.

Lemma inject_rejects_escaping_plan_witness :
  exists d e,
    inject (world Hostile.climbingArchive) Hostile.climbingLibs [blob1] "app.ipa" None [] =
      ([ExecFile "unzip" ["-l"; "--"; "app.ipa"] None;
        ExecFile "unzip" ["-p"; "--"; "app.ipa";
                          "Payload/Foo.app/SC_Info/Manifest.plist"] None]
         ++ d, Throw e)
    /\ Forall (fun ev => isArchiveUpdate ev = false) d
    /\ (fsNeverFails (world Hostile.climbingArchive) ->
        exists first,
          find (escapesStaging (world Hostile.climbingArchive) staging)
               [Hostile.climbingItem] = Some first
          /\ e = UnsafePath (entryPath first)).
Proof.
  apply (inject_rejects_escaping_plan
           (world Hostile.climbingArchive) Hostile.climbingLibs [blob1] "app.ipa" None
           [Hostile.climbingItem] Hostile.climbingItem staging []).
  - vm_compute. reflexivity.
  - reflexivity.
  - left. reflexivity.
  - reflexivity.
Defined.

Example climbing_manifest_run :
  inject (world Hostile.climbingArchive) Hostile.climbingLibs [blob1] "app.ipa" None [] =
  ([ExecFile "unzip" ["-l"; "--"; "app.ipa"] None;
    ExecFile "unzip" ["-p"; "--"; "app.ipa";
                      "Payload/Foo.app/SC_Info/Manifest.plist"] None;
    Mkdtemp "/tmp/sinf-";
    Rm "/tmp/sinf-AbCdEf"],
   Throw (UnsafePath "Payload/Foo.app/../../../etc/cron.d/job")).
Proof. vm_compute. reflexivity. Qed.

End FurtherRuns.

(** * Checks of the path and string models *)

Example resolve_ex1 :
  Path.resolve "/srv" ["/tmp/sinf-AbCdEf"; "Payload/Foo.app/SC_Info/Foo.sinf"]
  = "/tmp/sinf-AbCdEf/Payload/Foo.app/SC_Info/Foo.sinf".
Proof. reflexivity. Qed.

Example resolve_ex2 :
  Path.resolve "/srv" ["/tmp/sinf-AbCdEf"; "../../etc/passwd"] = "/etc/passwd".
Proof. reflexivity. Qed.

Example resolve_ex3 :
  Path.resolve "/srv" ["tmp/x"; "a/../b/./c//"] = "/srv/tmp/x/b/c".
Proof. reflexivity. Qed.

Example resolve_ex4 : Path.resolve "/srv" ["/tmp/x"; "/abs/y"] = "/abs/y".
Proof. reflexivity. Qed.

Example resolve_ex5 : Path.resolve "/srv" ["/tmp/x"; ""] = "/tmp/x".
Proof. reflexivity. Qed.

Example resolve_ex6 : Path.resolve "/" ["../.."] = "/".
Proof. reflexivity. Qed.

Example dirname_ex1 : Path.dirname "/tmp/x/a/b.sinf" = "/tmp/x/a".
Proof. reflexivity. Qed.
Example dirname_ex2 : Path.dirname "/a" = "/".
Proof. reflexivity. Qed.
Example dirname_ex3 : Path.dirname "a" = ".".
Proof. reflexivity. Qed.
Example dirname_ex4 : Path.dirname "/a/b///" = "/a".
Proof. reflexivity. Qed.
Example dirname_ex5 : Path.dirname "a/b" = "a".
Proof. reflexivity. Qed.
Example join_ex1 : Path.joinPaths ["/tmp"; "sinf-"] = "/tmp/sinf-".
Proof. reflexivity. Qed.
Example replace_ex1 : JsString.replace "Foo.apple.app" ".app" "" = "Foole.app".
Proof. reflexivity. Qed.
Example split_ex1 : JsString.split "/" "a//b/" = ["a"; ""; "b"; ""].
Proof. reflexivity. Qed.
